(** * Binary visualizer tab: the conversion logic of [binary_converter_tab.py]

    The widget keeps its state in attributes of [BinaryVisualizerTab] and of
    the eight [BitBox] buttons.  The embedding below keeps that shape: a
    record for the attributes the handlers read and write, a small monad for
    handlers that mutate the record and may raise, and pure functions for the
    Python builtins the handlers call ([int], [str], [bin], the [b], [o] and
    [x] format specifiers, [zfill], indexing and slicing). *)

From Stdlib Require Import ZArith List String Ascii Bool Lia.
From Equations Require Import Equations.
Import ListNotations.

Local Open Scope string_scope.
Local Open Scope Z_scope.

(** ** Python builtins *)

Module Py.

(** Exceptions the modelled code can raise. *)
Inductive exn : Type :=
| ValueError
| IndexError
| ZeroDivisionError.

(** Result of a call: a value, an exception, or a loop that did not finish
    within the steps it was given. *)
Inductive res (A : Type) : Type :=
| Ret (a : A)
| Raise (e : exn)
| Unfinished.
Arguments Ret {A} a.
Arguments Raise {A} e.
Arguments Unfinished {A}.

Definition code (c : ascii) : Z := Z.of_N (N_of_ascii c).

(** Characters are code points below 256.  The white space [int] skips
    around a literal: tab to carriage return and the space, and of the other
    code points the two Unicode spaces U+0085 and U+00A0. *)
Definition int_space (c : ascii) : bool :=
  let n := code c in
  ((9 <=? n) && (n <=? 13)) || (n =? 32) || (n =? 133) || (n =? 160).

Definition digit_of (c : ascii) : option Z :=
  let n := code c in
  if (48 <=? n) && (n <=? 57) then Some (n - 48) else None.

Fixpoint lstrip (s : string) : string :=
  match s with
  | String c rest => if int_space c then lstrip rest else s
  | EmptyString => EmptyString
  end.

Fixpoint rstrip (s : string) : string :=
  match s with
  | String c rest =>
      match rstrip rest with
      | EmptyString => if int_space c then EmptyString else String c EmptyString
      | kept => String c kept
      end
  | EmptyString => EmptyString
  end.

Definition strip (s : string) : string := rstrip (lstrip s).

(** Digits of a decimal literal after the first one: single underscores are
    allowed between digits only. *)
Fixpoint int_tail (s : string) (acc : Z) (after_underscore : bool) : option Z :=
  match s with
  | EmptyString => if after_underscore then None else Some acc
  | String c rest =>
      match digit_of c with
      | Some d => int_tail rest (10 * acc + d) false
      | None =>
          if (code c =? 95) && negb after_underscore
          then int_tail rest acc true
          else None
      end
  end.

Definition int_unsigned (s : string) : option Z :=
  match s with
  | String c rest =>
      match digit_of c with
      | Some d => int_tail rest d false
      | None => None
      end
  | EmptyString => None
  end.

(** [int(text)] on a string: [None] stands for [ValueError]. *)
Definition int (text : string) : option Z :=
  match strip text with
  | String c rest =>
      if code c =? 45 then option_map Z.opp (int_unsigned rest)
      else if code c =? 43 then int_unsigned rest
      else int_unsigned (String c rest)
  | EmptyString => None
  end.

(** [s[i]] with Python's negative indices: [None] stands for [IndexError]. *)
Definition index (s : string) (i : Z) : option ascii :=
  let n := Z.of_nat (String.length s) in
  if (0 <=? i) && (i <? n) then String.get (Z.to_nat i) s
  else if (- n <=? i) && (i <? 0) then String.get (Z.to_nat (n + i)) s
  else None.

(** [l[i]] on a list, same convention. *)
Definition item {A : Type} (l : list A) (i : Z) : option A :=
  let n := Z.of_nat (List.length l) in
  if (0 <=? i) && (i <? n) then nth_error l (Z.to_nat i)
  else if (- n <=? i) && (i <? 0) then nth_error l (Z.to_nat (n + i))
  else None.

(** [a % b] and [a // b]: floor semantics, which is [Z.modulo] and [Z.div];
    a zero divisor raises. *)
Definition mod_ (a b : Z) : res Z :=
  if b =? 0 then Raise ZeroDivisionError else Ret (a mod b).

Definition floordiv (a b : Z) : res Z :=
  if b =? 0 then Raise ZeroDivisionError else Ret (a / b).

(** Binary digits of a positive number, most significant first. *)
Fixpoint pos_bits (p : positive) : string :=
  match p with
  | xH => "1"
  | xO q => pos_bits q ++ "0"
  | xI q => pos_bits q ++ "1"
  end.

(** [bin(z)]. *)
Definition bin (z : Z) : string :=
  match z with
  | Z0 => "0b0"
  | Zpos p => "0b" ++ pos_bits p
  | Zneg p => "-0b" ++ pos_bits p
  end.

(** [s[k:]] for [k >= 0]. *)
Fixpoint slice_from (k : nat) (s : string) : string :=
  match k, s with
  | S k', String _ rest => slice_from k' rest
  | _, _ => s
  end.

Fixpoint zeros (n : nat) : string :=
  match n with
  | O => ""
  | S n' => String "0" (zeros n')
  end.

(** [s.zfill(width)]: zeros go after a leading sign. *)
Definition zfill (width : nat) (s : string) : string :=
  let pad := zeros (width - String.length s) in
  match s with
  | String c rest =>
      if (code c =? 45) || (code c =? 43) then String c (pad ++ rest)
      else pad ++ s
  | EmptyString => pad
  end.

Definition lower_digits : string := "0123456789abcdef".

Definition lower_digit (d : Z) : ascii :=
  match String.get (Z.to_nat d) lower_digits with
  | Some c => c
  | None => "?"%char
  end.

(** Digits of [n > 0] in [base >= 2], most significant first. *)
Fixpoint radix_loop (steps : nat) (base n : Z) (acc : string) : string :=
  match steps with
  | O => acc
  | S steps' =>
      if n <=? 0 then acc
      else radix_loop steps' base (n / base) (String (lower_digit (n mod base)) acc)
  end.

Definition radix (base n : Z) : string :=
  if n =? 0 then "0" else radix_loop (Z.to_nat n) base n "".

(** Magnitude first, then the sign, then zero padding between the sign and
    the digits: [format(z, "0<width>b")], [format(z, "o")], [format(z, "x")]
    and [str(z)]. *)
Definition signed (digits : Z -> string) (width : nat) (z : Z) : string :=
  if z <? 0
  then String "-" (zeros (width - 1 - String.length (digits (- z))) ++ digits (- z))
  else zeros (width - String.length (digits z)) ++ digits z.

Definition format_b (width : nat) (z : Z) : string :=
  signed (fun n => slice_from 2 (bin n)) width z.

Definition format_o (z : Z) : string := signed (radix 8) 0 z.
Definition format_x (z : Z) : string := signed (radix 16) 0 z.
Definition str (z : Z) : string := signed (radix 10) 0 z.

End Py.


Import Py.

(** ** Widget state *)

Definition num_bits : Z := 8.

(** A [BitBox] button: its power of two, the bit shown and whether clicks
    are honoured. *)
Module BitBox.

Record t : Type := mk {
  power : Z;
  value : Z;
  manual_mode : bool
}.

Definition init (power : Z) : t :=
  {| power := power; value := 0; manual_mode := false |}.

Definition set_value (v : Z) (b : t) : t :=
  {| power := power b; value := v; manual_mode := manual_mode b |}.

Definition set_manual_mode (m : bool) (b : t) : t :=
  {| power := power b; value := value b; manual_mode := m |}.

Definition toggle (b : t) : t :=
  if manual_mode b then set_value (1 - value b) b else b.

End BitBox.

(** Border of the decimal input: the theme's, [#00ffaa] after an accepted
    input, [#ff4444] after a rejected one. *)
Inductive Border : Type :=
| ThemeBorder
| GreenBorder
| RedBorder.

(** What the explanation pane shows, without its markup. *)
Inductive Explanation : Type :=
| Cleared
| DivisionUnsignedOnly (original_value : Z) (pattern : string)
| DivisionTable (original_value : Z) (rows : list (Z * Z * Z))
    (binary_representation : string)
| PowersNegative (original_value : Z) (unsigned_eq : Z)
| PowersZero
| PowersSum (original_value : Z) (parts : list Z) (binary : string).

(** Terms of the active-bit sum: [(-2^7)] or [2^power]. *)
Inductive SumTerm : Type :=
| MinusTwoToSeven
| TwoTo (power : Z).

Inductive SumLabel : Type :=
| NoActiveBits
| ActiveBits (active_parts : list SumTerm) (value : Z).

Inductive MessageBox : Type :=
| Correct (binary : string) (answer : Z)
| Incorrect (binary : string) (answer : Z) (user_answer : Z)
| InvalidInput.

(** The four display cards of the base conversions panel and the spin box of
    the Base-N card. *)
Record Cards : Type := mkCards {
  binary_card : string;
  octal_card : string;
  hex_card : string;
  custom_base_card : string;
  base_selector : Z
}.

Definition set_binary_card (x : string) (c : Cards) : Cards :=
  {| binary_card := x; octal_card := octal_card c; hex_card := hex_card c;
     custom_base_card := custom_base_card c;
     base_selector := base_selector c |}.

Definition set_octal_card (x : string) (c : Cards) : Cards :=
  {| binary_card := binary_card c; octal_card := x; hex_card := hex_card c;
     custom_base_card := custom_base_card c;
     base_selector := base_selector c |}.

Definition set_hex_card (x : string) (c : Cards) : Cards :=
  {| binary_card := binary_card c; octal_card := octal_card c; hex_card := x;
     custom_base_card := custom_base_card c;
     base_selector := base_selector c |}.

Definition set_custom_base_card (x : string) (c : Cards) : Cards :=
  {| binary_card := binary_card c; octal_card := octal_card c;
     hex_card := hex_card c; custom_base_card := x;
     base_selector := base_selector c |}.

Definition set_base_selector (x : Z) (c : Cards) : Cards :=
  {| binary_card := binary_card c; octal_card := octal_card c;
     hex_card := hex_card c; custom_base_card := custom_base_card c;
     base_selector := x |}.

(** The quiz panel: the counters, the stored answer, the widgets and the last
    message box shown. *)
Record Quiz : Type := mkQuiz {
  quiz_score : Z;
  quiz_total : Z;
  quiz_answer : Z;
  quiz_question : string;
  quiz_input : string;
  quiz_submit : bool;
  quiz_label : Z * Z;
  message_box : option MessageBox
}.

Definition set_quiz_score (x : Z) (q : Quiz) : Quiz :=
  {| quiz_score := x; quiz_total := quiz_total q;
     quiz_answer := quiz_answer q; quiz_question := quiz_question q;
     quiz_input := quiz_input q; quiz_submit := quiz_submit q;
     quiz_label := quiz_label q; message_box := message_box q |}.

Definition set_quiz_total (x : Z) (q : Quiz) : Quiz :=
  {| quiz_score := quiz_score q; quiz_total := x;
     quiz_answer := quiz_answer q; quiz_question := quiz_question q;
     quiz_input := quiz_input q; quiz_submit := quiz_submit q;
     quiz_label := quiz_label q; message_box := message_box q |}.

Definition set_quiz_answer (x : Z) (q : Quiz) : Quiz :=
  {| quiz_score := quiz_score q; quiz_total := quiz_total q; quiz_answer := x;
     quiz_question := quiz_question q; quiz_input := quiz_input q;
     quiz_submit := quiz_submit q; quiz_label := quiz_label q;
     message_box := message_box q |}.

Definition set_quiz_question (x : string) (q : Quiz) : Quiz :=
  {| quiz_score := quiz_score q; quiz_total := quiz_total q;
     quiz_answer := quiz_answer q; quiz_question := x;
     quiz_input := quiz_input q; quiz_submit := quiz_submit q;
     quiz_label := quiz_label q; message_box := message_box q |}.

Definition set_quiz_input (x : string) (q : Quiz) : Quiz :=
  {| quiz_score := quiz_score q; quiz_total := quiz_total q;
     quiz_answer := quiz_answer q; quiz_question := quiz_question q;
     quiz_input := x; quiz_submit := quiz_submit q;
     quiz_label := quiz_label q; message_box := message_box q |}.

Definition set_quiz_submit (x : bool) (q : Quiz) : Quiz :=
  {| quiz_score := quiz_score q; quiz_total := quiz_total q;
     quiz_answer := quiz_answer q; quiz_question := quiz_question q;
     quiz_input := quiz_input q; quiz_submit := x; quiz_label := quiz_label q;
     message_box := message_box q |}.

Definition set_quiz_label (x : Z * Z) (q : Quiz) : Quiz :=
  {| quiz_score := quiz_score q; quiz_total := quiz_total q;
     quiz_answer := quiz_answer q; quiz_question := quiz_question q;
     quiz_input := quiz_input q; quiz_submit := quiz_submit q;
     quiz_label := x; message_box := message_box q |}.

Definition set_message_box (x : option MessageBox) (q : Quiz) : Quiz :=
  {| quiz_score := quiz_score q; quiz_total := quiz_total q;
     quiz_answer := quiz_answer q; quiz_question := quiz_question q;
     quiz_input := quiz_input q; quiz_submit := quiz_submit q;
     quiz_label := quiz_label q; message_box := x |}.

(** Attributes of [BinaryVisualizerTab]. *)
Record Tab : Type := mkTab {
  decimal_input : string;
  decimal_input_style : Border;
  decimal_input_read_only : bool;
  invert_button : bool;
  manual_mode : bool;
  bit_boxes : list BitBox.t;
  cards : Cards;
  division_radio : bool;
  explanation_text : Explanation;
  total_sum_label : SumLabel;
  quiz : Quiz
}.

Definition set_decimal_input (x : string) (st : Tab) : Tab :=
  {| decimal_input := x; decimal_input_style := decimal_input_style st;
     decimal_input_read_only := decimal_input_read_only st;
     invert_button := invert_button st; manual_mode := manual_mode st;
     bit_boxes := bit_boxes st; cards := cards st;
     division_radio := division_radio st;
     explanation_text := explanation_text st;
     total_sum_label := total_sum_label st; quiz := quiz st |}.

Definition set_decimal_input_style (x : Border) (st : Tab) : Tab :=
  {| decimal_input := decimal_input st; decimal_input_style := x;
     decimal_input_read_only := decimal_input_read_only st;
     invert_button := invert_button st; manual_mode := manual_mode st;
     bit_boxes := bit_boxes st; cards := cards st;
     division_radio := division_radio st;
     explanation_text := explanation_text st;
     total_sum_label := total_sum_label st; quiz := quiz st |}.

Definition set_decimal_input_read_only (x : bool) (st : Tab) : Tab :=
  {| decimal_input := decimal_input st;
     decimal_input_style := decimal_input_style st;
     decimal_input_read_only := x; invert_button := invert_button st;
     manual_mode := manual_mode st; bit_boxes := bit_boxes st;
     cards := cards st; division_radio := division_radio st;
     explanation_text := explanation_text st;
     total_sum_label := total_sum_label st; quiz := quiz st |}.

Definition set_invert_button (x : bool) (st : Tab) : Tab :=
  {| decimal_input := decimal_input st;
     decimal_input_style := decimal_input_style st;
     decimal_input_read_only := decimal_input_read_only st;
     invert_button := x; manual_mode := manual_mode st;
     bit_boxes := bit_boxes st; cards := cards st;
     division_radio := division_radio st;
     explanation_text := explanation_text st;
     total_sum_label := total_sum_label st; quiz := quiz st |}.

Definition set_manual_mode (x : bool) (st : Tab) : Tab :=
  {| decimal_input := decimal_input st;
     decimal_input_style := decimal_input_style st;
     decimal_input_read_only := decimal_input_read_only st;
     invert_button := invert_button st; manual_mode := x;
     bit_boxes := bit_boxes st; cards := cards st;
     division_radio := division_radio st;
     explanation_text := explanation_text st;
     total_sum_label := total_sum_label st; quiz := quiz st |}.

Definition set_bit_boxes (x : list BitBox.t) (st : Tab) : Tab :=
  {| decimal_input := decimal_input st;
     decimal_input_style := decimal_input_style st;
     decimal_input_read_only := decimal_input_read_only st;
     invert_button := invert_button st; manual_mode := manual_mode st;
     bit_boxes := x; cards := cards st; division_radio := division_radio st;
     explanation_text := explanation_text st;
     total_sum_label := total_sum_label st; quiz := quiz st |}.

Definition set_cards (x : Cards) (st : Tab) : Tab :=
  {| decimal_input := decimal_input st;
     decimal_input_style := decimal_input_style st;
     decimal_input_read_only := decimal_input_read_only st;
     invert_button := invert_button st; manual_mode := manual_mode st;
     bit_boxes := bit_boxes st; cards := x;
     division_radio := division_radio st;
     explanation_text := explanation_text st;
     total_sum_label := total_sum_label st; quiz := quiz st |}.

Definition set_division_radio (x : bool) (st : Tab) : Tab :=
  {| decimal_input := decimal_input st;
     decimal_input_style := decimal_input_style st;
     decimal_input_read_only := decimal_input_read_only st;
     invert_button := invert_button st; manual_mode := manual_mode st;
     bit_boxes := bit_boxes st; cards := cards st; division_radio := x;
     explanation_text := explanation_text st;
     total_sum_label := total_sum_label st; quiz := quiz st |}.

Definition set_explanation_text (x : Explanation) (st : Tab) : Tab :=
  {| decimal_input := decimal_input st;
     decimal_input_style := decimal_input_style st;
     decimal_input_read_only := decimal_input_read_only st;
     invert_button := invert_button st; manual_mode := manual_mode st;
     bit_boxes := bit_boxes st; cards := cards st;
     division_radio := division_radio st; explanation_text := x;
     total_sum_label := total_sum_label st; quiz := quiz st |}.

Definition set_total_sum_label (x : SumLabel) (st : Tab) : Tab :=
  {| decimal_input := decimal_input st;
     decimal_input_style := decimal_input_style st;
     decimal_input_read_only := decimal_input_read_only st;
     invert_button := invert_button st; manual_mode := manual_mode st;
     bit_boxes := bit_boxes st; cards := cards st;
     division_radio := division_radio st;
     explanation_text := explanation_text st; total_sum_label := x;
     quiz := quiz st |}.

Definition set_quiz (x : Quiz) (st : Tab) : Tab :=
  {| decimal_input := decimal_input st;
     decimal_input_style := decimal_input_style st;
     decimal_input_read_only := decimal_input_read_only st;
     invert_button := invert_button st; manual_mode := manual_mode st;
     bit_boxes := bit_boxes st; cards := cards st;
     division_radio := division_radio st;
     explanation_text := explanation_text st;
     total_sum_label := total_sum_label st; quiz := x |}.

Definition on_cards (f : Cards -> Cards) (st : Tab) : Tab :=
  set_cards (f (cards st)) st.

Definition on_quiz (f : Quiz -> Quiz) (st : Tab) : Tab :=
  set_quiz (f (quiz st)) st.

(** ** Handlers: state and exceptions

    A handler runs on the attributes and leaves them as mutated so far when
    it raises, as Python does. *)

Definition M (A : Type) : Type := Tab -> res A * Tab.

Definition ret {A : Type} (a : A) : M A := fun st => (Ret a, st).

Definition bind {A B : Type} (c : M A) (k : A -> M B) : M B :=
  fun st =>
    match c st with
    | (Ret a, st') => k a st'
    | (Raise e, st') => (Raise e, st')
    | (Unfinished, st') => (Unfinished, st')
    end.

Definition gets {A : Type} (f : Tab -> A) : M A := fun st => (Ret (f st), st).

Definition modify (f : Tab -> Tab) : M unit := fun st => (Ret tt, f st).

Definition lift {A : Type} (r : res A) : M A := fun st => (r, st).

Definition or_raise {A : Type} (e : exn) (o : option A) : M A :=
  match o with
  | Some a => ret a
  | None => lift (Raise e)
  end.

Definition exn_eqb (a b : exn) : bool :=
  match a, b with
  | ValueError, ValueError => true
  | IndexError, IndexError => true
  | ZeroDivisionError, ZeroDivisionError => true
  | _, _ => false
  end.

(** [try: c  except e: handler]. *)
Definition try_except {A : Type} (c : M A) (e : exn) (handler : M A) : M A :=
  fun st =>
    match c st with
    | (Raise e', st') => if exn_eqb e e' then handler st' else (Raise e', st')
    | other => other
    end.

Declare Scope handler_scope.
Delimit Scope handler_scope with handler.
Notation "x <- c ;; k" := (bind c (fun x => k))
  (at level 61, c at next level, right associativity) : handler_scope.
Notation "c ;; k" := (bind c (fun _ => k))
  (at level 61, right associativity) : handler_scope.
Local Open Scope handler_scope.

(** ** [convert_to_base] *)

Definition digits : string := "0123456789ABCDEF".

(** The [while num > 0] loop; [steps] bounds the iterations. *)
Fixpoint convert_to_base_loop (steps : nat) (num base : Z) (result : string)
  : res string :=
  if num >? 0 then
    match steps with
    | O => Unfinished
    | S steps' =>
        match mod_ num base with
        | Ret i =>
            match index digits i with
            | Some c =>
                match floordiv num base with
                | Ret num' =>
                    convert_to_base_loop steps' num' base (String c result)
                | Raise e => Raise e
                | Unfinished => Unfinished
                end
            | None => Raise IndexError
            end
        | Raise e => Raise e
        | Unfinished => Unfinished
        end
    end
  else Ret result.

Definition convert_to_base_in (steps : nat) (num base : Z) : res string :=
  if num =? 0 then Ret "0" else convert_to_base_loop steps num base "".

(** With [base >= 2] the loop runs at most [num] times (see
    [convert_to_base_steps]), and that is the bound the handlers use. *)
Definition convert_to_base (num base : Z) : res string :=
  convert_to_base_in (Z.to_nat num) num base.

(** ** Explanations *)

(** The [while temp_val > 0] loop of [show_division_method]: one row
    [(temp_val, quotient, remainder)] per iteration. *)
Equations? division_rows (temp_val : Z) : list (Z * Z * Z)
  by wf (Z.to_nat temp_val) lt :=
  division_rows temp_val with Z_gt_dec temp_val 0 => {
    | left _ := (temp_val, temp_val / 2, temp_val mod 2)
                :: division_rows (temp_val / 2);
    | right _ := [] }.
Proof.
  apply Z2Nat.inj_lt; try lia.
  - apply Z.div_pos; lia.
  - apply Z.div_lt; lia.
Qed.

Definition show_division_method (value : Z) : Explanation :=
  let original_value := value in
  if value <? 0 then
    DivisionUnsignedOnly original_value
      (format_b 8 (Z.land original_value 255))
  else
    let binary_representation := slice_from 2 (bin original_value) in
    let first_row :=
      if original_value =? 0 then [(0, 0, 0)] else [] in
    DivisionTable original_value
      (first_row ++ division_rows original_value)%list
      binary_representation.

(** [range(start, stop, -1)]. *)
Definition range_down (start stop : Z) : list Z :=
  map (fun k => start - Z.of_nat k) (seq 0 (Z.to_nat (start - stop))).

(** The [for i in range(num_bits - 1, -1, -1)] loop of
    [show_powers_method]; returns [parts] and what is left of [remaining]. *)
Fixpoint powers_loop (powers : list Z) (remaining : Z) (parts : list Z)
  : list Z * Z :=
  match powers with
  | [] => (parts, remaining)
  | i :: rest =>
      let power_val := 2 ^ i in
      if remaining >=? power_val
      then powers_loop rest (remaining - power_val) (parts ++ [i])%list
      else powers_loop rest remaining parts
  end.

Definition show_powers_method (value : Z) : Explanation :=
  let original_value := value in
  if value <? 0 then
    PowersNegative original_value (Z.land value 255)
  else if value =? 0 then PowersZero
  else
    let (parts, _) := powers_loop (range_down (num_bits - 1) (-1)) value [] in
    PowersSum original_value parts (slice_from 2 (bin original_value)).

(** ** Bit boxes and the decimal input *)

(** [l[i] = x] for an index that [Py.item] accepts. *)
Fixpoint put_item {A : Type} (l : list A) (i : nat) (x : A) : list A :=
  match l, i with
  | _ :: rest, O => x :: rest
  | y :: rest, S i' => y :: put_item rest i' x
  | [], _ => []
  end.

(** The [for i, bit_char in enumerate(binary_str)] loop. *)
Fixpoint update_bits_loop (i : Z) (binary_str : string) : M unit :=
  match binary_str with
  | EmptyString => ret tt
  | String bit_char rest =>
      bit_value <- or_raise ValueError (int (String bit_char "")) ;;
      boxes <- gets bit_boxes ;;
      bit_box <- or_raise IndexError (item boxes i) ;;
      (if BitBox.value bit_box =? bit_value then ret tt
       else modify (set_bit_boxes
                      (put_item boxes (Z.to_nat i)
                         (BitBox.set_value bit_value bit_box)))) ;;
      update_bits_loop (i + 1) rest
  end.

Definition update_bits_from_decimal (value : Z) : M unit :=
  let binary_str :=
    format_b (Z.to_nat num_bits) (Z.land value (Z.shiftl 1 num_bits - 1)) in
  update_bits_loop 0 binary_str.

(** The [for bit_box in ...: if bit_box.value == 1: current_val += 2 **
    bit_box.power] loops. *)
Fixpoint add_active (boxes : list BitBox.t) (current_val : Z) : Z :=
  match boxes with
  | [] => current_val
  | bit_box :: rest =>
      if BitBox.value bit_box =? 1
      then add_active rest (current_val + 2 ^ BitBox.power bit_box)
      else add_active rest current_val
  end.

(** The value [update_decimal_from_bits] derives from the boxes: [None] is
    the [IndexError] of [bit_boxes[0]] on an empty list. *)
Definition current_val_of (boxes : list BitBox.t) : option Z :=
  match item boxes 0 with
  | Some msb =>
      let is_signed := BitBox.value msb =? 1 in
      if is_signed then Some (add_active (tl boxes) (-128))
      else Some (add_active boxes 0)
  | None => None
  end.

Fixpoint active_terms (boxes : list BitBox.t) : list SumTerm :=
  match boxes with
  | [] => []
  | bit_box :: rest =>
      if BitBox.value bit_box =? 1
      then TwoTo (BitBox.power bit_box) :: active_terms rest
      else active_terms rest
  end.

Definition update_total_sum_label (value : Z) : M unit :=
  boxes <- gets bit_boxes ;;
  msb <- or_raise IndexError (item boxes 0) ;;
  let is_signed_view := BitBox.value msb =? 1 in
  let active_parts :=
    if is_signed_view then MinusTwoToSeven :: active_terms (tl boxes)
    else active_terms boxes in
  match active_parts with
  | [] => modify (set_total_sum_label NoActiveBits)
  | _ => modify (set_total_sum_label (ActiveBits active_parts value))
  end.

Definition update_explanation (value : Z) : M unit :=
  try_except
    (text <- gets decimal_input ;;
     value <- (if String.eqb text "" then ret 0
               else or_raise ValueError (int text)) ;;
     division <- gets division_radio ;;
     if division
     then modify (set_explanation_text (show_division_method value))
     else modify (set_explanation_text (show_powers_method value)))
    ValueError
    (modify (set_explanation_text Cleared)).

Definition update_all_outputs (value : Z) : M unit :=
  let unsigned_pattern_val := Z.land value 255 in
  modify (on_cards (set_binary_card (format_b 8 unsigned_pattern_val))) ;;
  modify (on_cards (set_octal_card (format_o unsigned_pattern_val))) ;;
  modify (on_cards (set_hex_card (format_x unsigned_pattern_val))) ;;
  base <- gets (fun st => base_selector (cards st)) ;;
  converted <- lift (convert_to_base unsigned_pattern_val base) ;;
  modify (on_cards (set_custom_base_card converted)) ;;
  update_explanation value ;;
  update_total_sum_label value.

Definition on_decimal_changed (text : string) : M unit :=
  if String.eqb text "" then
    modify (set_decimal_input_style GreenBorder) ;;
    modify (set_invert_button true) ;;
    update_bits_from_decimal 0 ;;
    update_all_outputs 0
  else
    try_except
      (value <- or_raise ValueError (int text) ;;
       if (-128 <=? value) && (value <=? 255) then
         modify (set_decimal_input_style GreenBorder) ;;
         update_bits_from_decimal value ;;
         update_all_outputs value ;;
         if value =? -128
         then modify (set_invert_button false)
         else modify (set_invert_button true)
       else
         modify (set_decimal_input_style RedBorder) ;;
         modify (set_invert_button false))
      ValueError
      (modify (set_decimal_input_style RedBorder) ;;
       modify (set_invert_button false)).

(** The line edit takes [text] and emits [textChanged]; [on_decimal_changed]
    is the connected slot. *)
Definition textChanged (text : string) : M unit :=
  modify (set_decimal_input text) ;;
  on_decimal_changed text.

(** [decimal_input.setText(text)], and a user edit likewise: nothing is
    emitted when the text is the one already there. *)
Definition decimal_input_setText (text : string) : M unit :=
  old <- gets decimal_input ;;
  if String.eqb old text then ret tt else textChanged text.

(** The [for bit_box in self.bit_boxes: if bit_box.power == power: ...
    break] loop of [on_bit_clicked]. *)
Fixpoint toggle_first (power : Z) (boxes : list BitBox.t) : list BitBox.t :=
  match boxes with
  | [] => []
  | bit_box :: rest =>
      if BitBox.power bit_box =? power
      then BitBox.toggle bit_box :: rest
      else bit_box :: toggle_first power rest
  end.

(** [setText] runs with the signals of the input blocked here, so
    [on_decimal_changed] does not run. *)
Definition update_decimal_from_bits : M unit :=
  manual <- gets manual_mode ;;
  if negb manual then ret tt
  else
    boxes <- gets bit_boxes ;;
    current_val <- or_raise IndexError (current_val_of boxes) ;;
    modify (set_decimal_input (str current_val)) ;;
    update_all_outputs current_val.

(** The slot the tab connects to the [clicked] signal of each box.  (Each
    box also connects its own [toggle] to that signal; the statements below
    are about this handler.) *)
Definition on_bit_clicked (power : Z) : M unit :=
  manual <- gets manual_mode ;;
  if negb manual then ret tt
  else
    modify (fun st => set_bit_boxes (toggle_first power (bit_boxes st)) st) ;;
    update_decimal_from_bits.

Definition toggle_manual_mode (state : bool) : M unit :=
  modify (set_manual_mode state) ;;
  modify (set_decimal_input_read_only state) ;;
  modify (fun st =>
            set_bit_boxes (map (BitBox.set_manual_mode state) (bit_boxes st)) st).

Definition invert_sign : M unit :=
  try_except
    (text <- gets decimal_input ;;
     value <- or_raise ValueError (int text) ;;
     let inverted_value := - value in
     decimal_input_setText (str inverted_value))
    ValueError
    (ret tt).

(** A click on the invert button: a disabled button emits no [clicked]. *)
Definition invert_button_click : M unit :=
  enabled <- gets invert_button ;;
  if enabled then invert_sign else ret tt.

(** The spin box of the Base-N card: [valueChanged] is connected to
    [update_all_outputs], which therefore receives the new base as its
    [value]. *)
Definition base_selector_setValue (base : Z) : M unit :=
  let base := Z.max 2 (Z.min 36 base) in
  old <- gets (fun st => base_selector (cards st)) ;;
  modify (on_cards (set_base_selector base)) ;;
  if old =? base then ret tt else update_all_outputs base.

(** ** Quiz *)

(** [start_quiz], with the number [random.randint(0, 255)] returned. *)
Definition start_quiz (drawn : Z) : M unit :=
  modify (on_quiz (set_quiz_answer drawn)) ;;
  let binary := zfill 8 (slice_from 2 (bin drawn)) in
  modify (on_quiz (set_quiz_question ("What is " ++ binary ++ " in decimal?"))) ;;
  modify (on_quiz (set_quiz_input "")) ;;
  modify (on_quiz (set_quiz_submit true)).

Definition check_quiz_answer : M unit :=
  try_except
    (text <- gets (fun st => quiz_input (quiz st)) ;;
     user_answer <- or_raise ValueError (int text) ;;
     modify (on_quiz (fun q => set_quiz_total (quiz_total q + 1) q)) ;;
     answer <- gets (fun st => quiz_answer (quiz st)) ;;
     let binary := zfill 8 (slice_from 2 (bin answer)) in
     (if user_answer =? answer then
        modify (on_quiz (fun q => set_quiz_score (quiz_score q + 1) q)) ;;
        modify (on_quiz (set_message_box (Some (Correct binary answer))))
      else
        modify (on_quiz (set_message_box
                           (Some (Incorrect binary answer user_answer))))) ;;
     modify (on_quiz (fun q => set_quiz_label (quiz_score q, quiz_total q) q)) ;;
     modify (on_quiz (set_quiz_submit false)) ;;
     modify (on_quiz (set_quiz_input "")))
    ValueError
    (modify (on_quiz (set_message_box (Some InvalidInput)))).

(** ** The tab after [__init__] *)

(** The attributes once the widgets exist, before [init_ui] sets the text
    of the decimal input. *)
Definition constructed : Tab :=
  {| decimal_input := "";
     decimal_input_style := ThemeBorder;
     decimal_input_read_only := false;
     invert_button := true;
     manual_mode := false;
     bit_boxes := map BitBox.init (range_down (num_bits - 1) (-1));
     cards := {| binary_card := "0"; octal_card := "0"; hex_card := "0";
                 custom_base_card := "0"; base_selector := 10 |};
     division_radio := false;
     explanation_text := Cleared;
     total_sum_label := NoActiveBits;
     quiz := {| quiz_score := 0; quiz_total := 0; quiz_answer := 0;
                quiz_question := "What is 1101 in decimal?";
                quiz_input := ""; quiz_submit := true; quiz_label := (0, 0);
                message_box := None |} |}.

Definition init_ui : M unit :=
  decimal_input_setText "0" ;;
  update_all_outputs 0.

Definition initial : Tab := snd (init_ui constructed).

(** Events in sequence.  The run ends at the first handler that raises:
    PyQt6 aborts the application when an exception leaves a slot, and the
    file installs no exception hook. *)
Fixpoint run (events : list (M unit)) : M unit :=
  match events with
  | [] => ret tt
  | e :: rest => e ;; run rest
  end.

(** ** Views used by the statements *)

(** Consecutive integers [lo, lo + 1, ...]. *)
Fixpoint zrange (lo : Z) (n : nat) : list Z :=
  match n with
  | O => []
  | S n' => lo :: zrange (lo + 1) n'
  end.

Definition between (lo hi : Z) : list Z := zrange lo (Z.to_nat (hi - lo + 1)).

(** The characters 0 and 1, and the bit each stands for. *)
Definition is_bit (c : ascii) : bool := (code c =? 48) || (code c =? 49).

Definition bit_of (c : ascii) : Z := code c - 48.

(** The boxes once the characters of a bit string are written into them,
    first character into the first box. *)
Fixpoint write_bits (s : string) (boxes : list BitBox.t) : list BitBox.t :=
  match s, boxes with
  | String c rest, b :: bs => BitBox.set_value (bit_of c) b :: write_bits rest bs
  | _, _ => boxes
  end.

(** What the decoding of the boxes depends on. *)
Definition view (boxes : list BitBox.t) : list (Z * Z) :=
  map (fun b => (BitBox.power b, BitBox.value b)) boxes.

(** Boxes with the given powers and values. *)
Definition of_view (pv : list (Z * Z)) : list BitBox.t :=
  map (fun '(p, v) => BitBox.mk p v false) pv.

Definition bits_of (s : string) : list Z := map bit_of (list_ascii_of_string s).

Definition powers_7_0 : list Z := [7; 6; 5; 4; 3; 2; 1; 0].

(** The bit string [update_bits_from_decimal] writes. *)
Definition binary_str (value : Z) : string :=
  format_b (Z.to_nat num_bits) (Z.land value (Z.shiftl 1 num_bits - 1)).

(** The tab has its eight boxes, most significant first, and a base the
    spin box allows. *)
Definition well_formed (st : Tab) : Prop :=
  map BitBox.power (bit_boxes st) = powers_7_0
  /\ 2 <= base_selector (cards st) <= 36.

Definition well_formedb (st : Tab) : bool :=
  (if list_eq_dec Z.eq_dec (map BitBox.power (bit_boxes st)) powers_7_0
   then true else false)
  && (2 <=? base_selector (cards st)) && (base_selector (cards st) <=? 36).

(** The boxes show the pattern of [v]. *)
Definition shows (st : Tab) (v : Z) : Prop :=
  view (bit_boxes st) = combine powers_7_0 (bits_of (binary_str v)).

(** The signed reading of an 8-bit pattern. *)
Definition wrap (v : Z) : Z := if v <=? 127 then v else v - 256.

(** Value of a digit of the alphabet 0-9A-Z. *)
Definition digit_value (c : ascii) : option Z :=
  let n := code c in
  if (48 <=? n) && (n <=? 57) then Some (n - 48)
  else if (65 <=? n) && (n <=? 90) then Some (n - 55)
  else None.

(** A numeral over 0-9A-Z read in [base], most significant digit first. *)
Fixpoint numeral_from (base : Z) (s : string) (acc : Z) : option Z :=
  match s with
  | EmptyString => Some acc
  | String c rest =>
      match digit_value c with
      | Some d => if d <? base then numeral_from base rest (base * acc + d)
                  else None
      | None => None
      end
  end.

Definition numeral (base : Z) (s : string) : option Z :=
  match s with
  | EmptyString => None
  | _ => numeral_from base s 0
  end.

(** A numeral of two digits or more that starts with 0. *)
Definition leading_zero (s : string) : bool :=
  match s with
  | String c (String _ _) => code c =? 48
  | _ => false
  end.

(** What is asked of the string returned for [v] in [base]: a numeral over
    0-9A-Z that reads back as [v], without leading zero, and the single
    digit 0 for [v = 0]. *)
Definition base_string_ok (v base : Z) (s : string) : bool :=
  match numeral base s with
  | Some n => (n =? v) && negb (leading_zero s)
              && (if v =? 0 then String.eqb s "0" else true)
  | None => false
  end.

(** On the values and bases the tab can pass, [convert_to_base] returns a
    string, or raises [IndexError] with a base above 16. *)
Definition conversion_outcome (u base : Z) : bool :=
  match convert_to_base u base with
  | Ret _ => true
  | Raise IndexError => 16 <? base
  | _ => false
  end.

(** The cards once [value] is shown, [converted] being the Base-N string. *)
Definition shown (value : Z) (converted : string) (c : Cards) : Cards :=
  let unsigned_pattern_val := Z.land value 255 in
  set_custom_base_card converted
    (set_hex_card (format_x unsigned_pattern_val)
       (set_octal_card (format_o unsigned_pattern_val)
          (set_binary_card (format_b 8 unsigned_pattern_val) c))).

(** A text that is rejected: not empty, and either no integer or an integer
    outside [-128, 255]. *)
Definition rejected (text : string) : Prop :=
  text <> ""
  /\ (int text = None
      \/ exists v, int text = Some v /\ (v < -128 \/ 255 < v)).


(** The remainder column read from the last row up to the first. *)
Fixpoint remainders_bottom_up (rows : list (Z * Z * Z)) : string :=
  match rows with
  | [] => ""
  | (_, _, remainder) :: rest => remainders_bottom_up rest ++ str remainder
  end.

(** A halving trace of [dividend]: every row holds a dividend, its half and
    its parity, each row starts from the half of the one before, and the
    last row is the first whose half is 0. *)
Fixpoint is_trace (dividend : Z) (rows : list (Z * Z * Z)) : Prop :=
  match rows with
  | [] => False
  | (d, q, r) :: rest =>
      d = dividend /\ q = d / 2 /\ r = d mod 2
      /\ match rest with
         | [] => q = 0
         | _ :: _ => 0 < q /\ is_trace q rest
         end
  end.

(** The powers an explanation lists. *)
Definition selected_powers (e : Explanation) : list Z :=
  match e with
  | PowersSum _ parts _ => parts
  | _ => []
  end.

(** A scan of [powers]: [i] is taken when what remains is at least
    [2 ^ i]. *)
Fixpoint greedy (powers : list Z) (remaining : Z) : list Z :=
  match powers with
  | [] => []
  | i :: rest =>
      if 2 ^ i <=? remaining then i :: greedy rest (remaining - 2 ^ i)
      else greedy rest remaining
  end.

Definition sum_of_powers (parts : list Z) : Z :=
  fold_right (fun i acc => 2 ^ i + acc) 0 parts.

(** ** The remaining slots and the events of a run *)

(** The radio buttons of the explanation panel: [buttonClicked] is connected
    to [update_explanation], which receives the button as its [value] and
    never reads it. *)
Definition mode_group_buttonClicked (division : bool) : M unit :=
  modify (set_division_radio division) ;;
  update_explanation 0.

(** A user edit of the decimal input: a read-only line edit takes none. *)
Definition decimal_input_edit (text : string) : M unit :=
  read_only <- gets decimal_input_read_only ;;
  if read_only then ret tt else decimal_input_setText text.

(** A user edit of the quiz input, which has no slot connected. *)
Definition quiz_input_edit (text : string) : M unit :=
  modify (on_quiz (set_quiz_input text)).

(** A click on the submit button of the quiz: a disabled button emits no
    [clicked]. *)
Definition quiz_submit_click : M unit :=
  enabled <- gets (fun st => quiz_submit (quiz st)) ;;
  if enabled then check_quiz_answer else ret tt.

(** The slot each box connects to its own [clicked] signal: [toggle] on the
    box at position [i]. *)
Fixpoint toggle_at (i : nat) (boxes : list BitBox.t) : list BitBox.t :=
  match boxes, i with
  | [], _ => []
  | b :: rest, O => BitBox.toggle b :: rest
  | b :: rest, S i' => b :: toggle_at i' rest
  end.

Definition bit_box_toggle (i : nat) : M unit :=
  modify (fun st => set_bit_boxes (toggle_at i (bit_boxes st)) st).

(** What can happen to the tab: user actions and the slots they reach. *)
Inductive Event : Type :=
| DecimalEdited (text : string)
| BoxToggled (i : nat)
| BitClicked (power : Z)
| ManualModeToggled (state : bool)
| InvertClicked
| BaseSelected (base : Z)
| ModeSelected (division : bool)
| QuizStarted (drawn : Z)
| QuizEdited (text : string)
| QuizSubmitted.

Definition slot (e : Event) : M unit :=
  match e with
  | DecimalEdited text => decimal_input_edit text
  | BoxToggled i => bit_box_toggle i
  | BitClicked power => on_bit_clicked power
  | ManualModeToggled state => toggle_manual_mode state
  | InvertClicked => invert_button_click
  | BaseSelected base => base_selector_setValue base
  | ModeSelected division => mode_group_buttonClicked division
  | QuizStarted drawn => start_quiz drawn
  | QuizEdited text => quiz_input_edit text
  | QuizSubmitted => quiz_submit_click
  end.

(** The tab after a list of events. *)
Definition after (events : list Event) : Tab :=
  snd (run (map slot events) initial).

(** ** Views used by the further statements *)

(** A bit box holds 0 or 1 and honours clicks exactly in manual mode. *)
Definition box_ok (manual : bool) (b : BitBox.t) : Prop :=
  (BitBox.value b = 0 \/ BitBox.value b = 1)
  /\ BitBox.manual_mode b = manual.

(** What the handlers keep: the eight boxes with their powers, bits and
    flags, the base within the range of the spin box, the input read-only
    exactly in manual mode, and a score between 0 and the total. *)
Definition invariant (st : Tab) : Prop :=
  well_formed st
  /\ Forall (box_ok (manual_mode st)) (bit_boxes st)
  /\ decimal_input_read_only st = manual_mode st
  /\ 0 <= quiz_score (quiz st) <= quiz_total (quiz st).

(** A handler keeps the invariant, also when it raises. *)
Definition preserves {A : Type} (c : M A) : Prop :=
  forall st, invariant st -> invariant (snd (c st)).

(** The attributes [update_all_outputs] and the explanation slots leave
    alone. *)
Definition core (st : Tab)
  : string * Border * bool * bool * bool * list BitBox.t * Z * bool * Quiz :=
  (decimal_input st, decimal_input_style st, decimal_input_read_only st,
   invert_button st, manual_mode st, bit_boxes st, base_selector (cards st),
   division_radio st, quiz st).

(** The attributes [on_decimal_changed] leaves alone, the boxes apart. *)
Definition kept (st : Tab) : string * bool * bool * Z * bool * Quiz :=
  (decimal_input st, decimal_input_read_only st, manual_mode st,
   base_selector (cards st), division_radio st, quiz st).

(** Letters a to z in upper case. *)
Definition upper_char (c : ascii) : ascii :=
  let n := code c in
  if (97 <=? n) && (n <=? 122) then ascii_of_N (Z.to_N (n - 32)) else c.

Fixpoint upper (s : string) : string :=
  match s with
  | EmptyString => EmptyString
  | String c rest => String (upper_char c) (upper rest)
  end.

(** The terms the sum label lists for the boxes, and what they add up to. *)
Definition sum_terms (boxes : list BitBox.t) : list SumTerm :=
  match boxes with
  | [] => []
  | msb :: rest =>
      if BitBox.value msb =? 1 then MinusTwoToSeven :: active_terms rest
      else active_terms boxes
  end.

Definition label_of (boxes : list BitBox.t) (value : Z) : SumLabel :=
  match sum_terms boxes with
  | [] => NoActiveBits
  | parts => ActiveBits parts value
  end.

Definition term_value (t : SumTerm) : Z :=
  match t with
  | MinusTwoToSeven => - 2 ^ 7
  | TwoTo power => 2 ^ power
  end.

Definition terms_total (parts : list SumTerm) : Z :=
  fold_right (fun t acc => term_value t + acc) 0 parts.

(** The explanation [update_explanation] puts in the pane for a text of the
    decimal input and a mode. *)
Definition explanation_of (text : string) (division : bool) : Explanation :=
  match (if String.eqb text "" then Some 0 else int text) with
  | Some value =>
      if division then show_division_method value
      else show_powers_method value
  | None => Cleared
  end.


(** The invert button is enabled exactly when the text of the decimal input
    is empty or an integer of [-127, 255]. *)
Definition invert_tracks_text (st : Tab) : Prop :=
  invert_button st = true
  <-> (decimal_input st = ""
       \/ exists v, int (decimal_input st) = Some v /\ -127 <= v <= 255).

(** Events other than clicks on the boxes. *)
Definition no_bit_event (e : Event) : bool :=
  match e with
  | BoxToggled _ | BitClicked _ => false
  | _ => true
  end.



(** The digit of weight [base ^ k] in [num]. *)
Definition digit_at (num base : Z) (k : nat) : Z :=
  (num / base ^ Z.of_nat k) mod base.

(** ** The builtins and the pure functions on examples *)

Example int_spaces_sign_underscore : int " -12_8 " = Some (-128).
Proof.
  reflexivity.
Qed.

Example int_empty_text : int "" = None.
Proof.
  reflexivity.
Qed.

Example int_double_underscore : int "1__0" = None.
Proof.
  reflexivity.
Qed.

Example int_plus_leading_zeros : int "+007" = Some 7.
Proof.
  reflexivity.
Qed.

Example int_sign_then_space : int "- 5" = None.
Proof.
  reflexivity.
Qed.

Example str_negative : str (-200) = "-200".
Proof.
  reflexivity.
Qed.

Example str_zero : str 0 = "0".
Proof.
  reflexivity.
Qed.

Example bin_77 : bin 77 = "0b1001101".
Proof.
  reflexivity.
Qed.

Example format_b_200 : format_b 8 200 = "11001000".
Proof.
  reflexivity.
Qed.

Example format_x_200 : format_x 200 = "c8".
Proof.
  reflexivity.
Qed.

Example format_o_200 : format_o 200 = "310".
Proof.
  reflexivity.
Qed.

Example zfill_77 : zfill 8 (slice_from 2 (bin 77)) = "01001101".
Proof.
  reflexivity.
Qed.

Example convert_to_base_200_16 : convert_to_base 200 16 = Ret "C8".
Proof.
  reflexivity.
Qed.

Example convert_to_base_negative : convert_to_base (-5) 10 = Ret "".
Proof.
  reflexivity.
Qed.

Example division_rows_6 : division_rows 6 = [(6, 3, 0); (3, 1, 1); (1, 0, 1)].
Proof.
  reflexivity.
Qed.

Example show_powers_method_negative : show_powers_method (-1) = PowersNegative (-1) 255.
Proof.
  reflexivity.
Qed.

Example show_division_method_negative : show_division_method (-1) = DivisionUnsignedOnly (-1) "11111111".
Proof.
  reflexivity.
Qed.

(** The scenario of input -1: the boxes take 11111111, which reads back as
    -128 + 127 = -1. *)
Example input_minus_1 :
  map BitBox.value (bit_boxes (snd (decimal_input_setText "-1" initial)))
  = [1; 1; 1; 1; 1; 1; 1; 1]
  /\ current_val_of (bit_boxes (snd (decimal_input_setText "-1" initial)))
     = Some (-1).
Proof.
  split; reflexivity.
Qed.

(** ** Ranges *)

Lemma zrange_In (n : nat) : forall lo v,
  lo <= v < lo + Z.of_nat n -> In v (zrange lo n).
Proof.
  induction n as [|n IH]; intros lo v H.
  - simpl in H. lia.
  - simpl. destruct (Z.eq_dec lo v) as [->|Hne]; [now left|right].
    apply IH. lia.
Qed.

Lemma between_all (f : Z -> bool) (lo hi : Z) :
  forallb f (between lo hi) = true ->
  forall v, lo <= v <= hi -> f v = true.
Proof.
  intros Hall v Hv. rewrite forallb_forall in Hall. apply Hall.
  apply zrange_In. lia.
Qed.

Lemma land_255_range (v : Z) : 0 <= Z.land v 255 <= 255.
Proof.
  change (Z.land v 255) with (Z.land v (Z.ones 8)).
  rewrite Z.land_ones by lia.
  change (2 ^ 8) with 256. pose proof (Z.mod_pos_bound v 256). lia.
Qed.

Lemma well_formedb_ok (st : Tab) : well_formedb st = true -> well_formed st.
Proof.
  unfold well_formedb, well_formed. intros H.
  apply andb_true_iff in H. destruct H as [H H36].
  apply andb_true_iff in H. destruct H as [Hp H2].
  destruct (list_eq_dec Z.eq_dec _ _) as [Heq|]; [|discriminate].
  split; [exact Heq|]. split; [now apply Z.leb_le | now apply Z.leb_le].
Qed.

(** ** Records *)

Lemma set_bit_boxes_same (st : Tab) : set_bit_boxes (bit_boxes st) st = st.
Proof.
  destruct st; reflexivity.
Qed.

Lemma set_bit_boxes_twice (l1 l2 : list BitBox.t) (st : Tab) :
  set_bit_boxes l2 (set_bit_boxes l1 st) = set_bit_boxes l2 st.
Proof.
  reflexivity.
Qed.

Lemma set_value_same (b : BitBox.t) : BitBox.set_value (BitBox.value b) b = b.
Proof.
  destruct b; reflexivity.
Qed.

(** ** Writing the bits *)

Lemma code_inj (c : ascii) (n : Z) :
  code c = n -> c = ascii_of_N (Z.to_N n).
Proof.
  intros <-. unfold code. rewrite N2Z.id. symmetry. apply ascii_N_embedding.
Qed.

Lemma int_of_bit (c : ascii) :
  is_bit c = true -> int (String c "") = Some (bit_of c).
Proof.
  unfold is_bit. intros H. apply orb_true_iff in H.
  destruct H as [H|H]; apply Z.eqb_eq in H; apply code_inj in H; subst c;
    reflexivity.
Qed.

Lemma item_app_here {A : Type} (pre : list A) (x : A) (post : list A) :
  item (pre ++ x :: post)%list (Z.of_nat (List.length pre)) = Some x.
Proof.
  unfold item. rewrite length_app. simpl.
  replace ((0 <=? Z.of_nat (List.length pre))
           && (Z.of_nat (List.length pre) <? Z.of_nat (List.length pre + S (List.length post))))
    with true.
  - rewrite Nat2Z.id. rewrite nth_error_app2 by lia.
    rewrite Nat.sub_diag. reflexivity.
  - symmetry. apply andb_true_iff. split; [apply Z.leb_le|apply Z.ltb_lt]; lia.
Qed.

Lemma put_item_app_here {A : Type} (pre : list A) (x y : A) (post : list A) :
  put_item (pre ++ x :: post)%list (List.length pre) y = (pre ++ y :: post)%list.
Proof.
  induction pre as [|a pre IH]; simpl; [reflexivity|]. now rewrite IH.
Qed.

Lemma update_bits_loop_writes (s : string) :
  forall (pre boxes : list BitBox.t) (st : Tab),
    forallb is_bit (list_ascii_of_string s) = true ->
    bit_boxes st = (pre ++ boxes)%list ->
    (String.length s <= List.length boxes)%nat ->
    update_bits_loop (Z.of_nat (List.length pre)) s st
    = (Ret tt, set_bit_boxes (pre ++ write_bits s boxes)%list st).
Proof.
  induction s as [|c rest IH]; intros pre boxes st Hbits Hst Hlen.
  - simpl. rewrite <- Hst, set_bit_boxes_same. reflexivity.
  - simpl in Hbits. apply andb_true_iff in Hbits. destruct Hbits as [Hc Hrest].
    destruct boxes as [|b bs]; [simpl in Hlen; lia|].
    simpl in Hlen.
    cbn [update_bits_loop]. unfold bind at 1.
    rewrite (int_of_bit c Hc). cbn [or_raise ret].
    unfold bind at 1, gets at 1. rewrite Hst.
    unfold bind at 1. rewrite item_app_here. cbn [or_raise ret].
    unfold bind at 1.
    replace (Z.of_nat (List.length pre) + 1) with (Z.of_nat (List.length (pre ++ [b])%list))
      by (rewrite length_app; simpl; lia).
    destruct (BitBox.value b =? bit_of c) eqn:Hv.
    + apply Z.eqb_eq in Hv. cbn [ret].
      rewrite (IH (pre ++ [b])%list bs st Hrest).
      * rewrite <- app_assoc. simpl. rewrite <- Hv, set_value_same. reflexivity.
      * rewrite Hst, <- app_assoc. reflexivity.
      * lia.
    + unfold modify. rewrite Nat2Z.id, put_item_app_here.
      replace (List.length (pre ++ [b])%list)
        with (List.length (pre ++ [BitBox.set_value (bit_of c) b])%list)
        by (rewrite !length_app; reflexivity).
      rewrite (IH (pre ++ [BitBox.set_value (bit_of c) b])%list bs _ Hrest).
      * rewrite <- app_assoc. reflexivity.
      * simpl. rewrite <- app_assoc. reflexivity.
      * lia.
Qed.

Lemma binary_str_shape (value : Z) :
  forallb is_bit (list_ascii_of_string (binary_str value)) = true
  /\ String.length (binary_str value) = 8%nat.
Proof.
  unfold binary_str.
  change (Z.shiftl 1 num_bits - 1) with 255.
  change (Z.to_nat num_bits) with 8%nat.
  pose proof (land_255_range value) as Hu.
  pose proof (between_all
    (fun u => forallb is_bit (list_ascii_of_string (format_b 8 u))
              && (String.length (format_b 8 u) =? 8)%nat) 0 255) as Hall.
  specialize (Hall ltac:(vm_compute; reflexivity) _ Hu).
  apply andb_true_iff in Hall. destruct Hall as [H1 H2].
  split; [exact H1|]. now apply Nat.eqb_eq.
Qed.

Lemma update_bits_from_decimal_writes (st : Tab) (value : Z) :
  List.length (bit_boxes st) = 8%nat ->
  update_bits_from_decimal value st
  = (Ret tt, set_bit_boxes (write_bits (binary_str value) (bit_boxes st)) st).
Proof.
  intros Hlen. destruct (binary_str_shape value) as [Hbits Hs].
  unfold update_bits_from_decimal. fold (binary_str value).
  apply (update_bits_loop_writes (binary_str value) [] (bit_boxes st) st Hbits).
  - reflexivity.
  - rewrite Hs, Hlen. apply Nat.le_refl.
Qed.

Lemma view_write_bits (s : string) : forall boxes : list BitBox.t,
  String.length s = List.length boxes ->
  view (write_bits s boxes) = combine (map BitBox.power boxes) (bits_of s).
Proof.
  induction s as [|c rest IH]; intros [|b bs] Hlen; simpl in Hlen;
    try discriminate; [reflexivity|].
  simpl. unfold bits_of in *. simpl. f_equal. apply IH. lia.
Qed.

Lemma powers_write_bits (s : string) : forall boxes : list BitBox.t,
  map BitBox.power (write_bits s boxes) = map BitBox.power boxes.
Proof.
  induction s as [|c rest IH]; intros [|b bs]; simpl; try reflexivity.
  now rewrite IH.
Qed.

Lemma add_active_view (boxes : list BitBox.t) : forall acc : Z,
  add_active boxes acc = add_active (of_view (view boxes)) acc.
Proof.
  induction boxes as [|b bs IH]; intros acc; [reflexivity|].
  simpl. destruct (BitBox.value b =? 1); apply IH.
Qed.

Lemma current_val_of_view (boxes : list BitBox.t) :
  current_val_of boxes = current_val_of (of_view (view boxes)).
Proof.
  destruct boxes as [|b bs]; [reflexivity|].
  unfold current_val_of. cbn [view of_view map item List.length].
  change (item (b :: bs) 0) with (Some b).
  cbn -[add_active]. destruct (BitBox.value b =? 1).
  - f_equal. apply (add_active_view bs).
  - f_equal. apply (add_active_view (b :: bs)).
Qed.

Lemma well_formed_length (st : Tab) :
  map BitBox.power (bit_boxes st) = powers_7_0 ->
  List.length (bit_boxes st) = 8%nat.
Proof.
  intros H. rewrite <- (length_map BitBox.power), H. reflexivity.
Qed.

(** After [update_bits_from_decimal value] the boxes show [value]. *)
Lemma update_bits_from_decimal_shows (st : Tab) (value : Z) :
  map BitBox.power (bit_boxes st) = powers_7_0 ->
  exists st',
    update_bits_from_decimal value st = (Ret tt, st')
    /\ st' = set_bit_boxes (bit_boxes st') st
    /\ map BitBox.power (bit_boxes st') = powers_7_0
    /\ shows st' value.
Proof.
  intros Hp. pose proof (well_formed_length st Hp) as Hlen.
  eexists. split; [apply update_bits_from_decimal_writes, Hlen|].
  unfold shows. cbn [bit_boxes set_bit_boxes]. split; [reflexivity|]. split.
  - rewrite powers_write_bits. exact Hp.
  - rewrite view_write_bits, Hp; [reflexivity|].
    destruct (binary_str_shape value) as [_ ->]. now rewrite Hlen.
Qed.

Lemma decode_pattern (v : Z) :
  -128 <= v <= 255 ->
  current_val_of (of_view (combine powers_7_0 (bits_of (binary_str v))))
  = Some (wrap v).
Proof.
  intros Hv.
  pose proof (between_all
    (fun v =>
       match current_val_of
               (of_view (combine powers_7_0 (bits_of (binary_str v)))) with
       | Some r => r =? wrap v
       | None => false
       end) (-128) 255 ltac:(vm_compute; reflexivity) v Hv) as H.
  cbv beta in H.
  destruct (current_val_of _) as [r|]; [|discriminate].
  apply Z.eqb_eq in H. now subst.
Qed.

Lemma shows_current_val (st : Tab) (v : Z) :
  shows st v -> -128 <= v <= 255 ->
  current_val_of (bit_boxes st) = Some (wrap v).
Proof.
  intros Hs Hv. rewrite current_val_of_view, Hs. now apply decode_pattern.
Qed.

(** ** Round trip through the boxes *)

(** C1, as amended: for v in [-128, 255], writing v into the eight boxes
    with [update_bits_from_decimal] and reading the boxes back the way
    [update_decimal_from_bits] does gives v when v <= 127 and v - 256 when
    v >= 128 (a set top bit is always read as -128). *)
Theorem bits_round_trip (st : Tab) (v : Z) :
  map BitBox.power (bit_boxes st) = powers_7_0 ->
  -128 <= v <= 255 ->
  fst (update_bits_from_decimal v st) = Ret tt
  /\ current_val_of (bit_boxes (snd (update_bits_from_decimal v st)))
     = Some (if v <=? 127 then v else v - 256).
Proof.
  intros Hp Hv.
  destruct (update_bits_from_decimal_shows st v Hp) as (st' & -> & _ & _ & Hs).
  split; [reflexivity|]. apply (shows_current_val st' v Hs Hv).
Qed.

Lemma bits_round_trip_witness :
  fst (update_bits_from_decimal (-1) initial) = Ret tt
  /\ current_val_of (bit_boxes (snd (update_bits_from_decimal (-1) initial)))
     = Some (-1).
Proof.
  apply (bits_round_trip initial (-1)); [reflexivity | lia].
Defined.

(** C1 as stated fails at v = 200: the pattern 11001000 is read back as
    -56. *)
Lemma bits_round_trip_200 :
  -128 <= 200 <= 255
  /\ current_val_of (bit_boxes (snd (update_bits_from_decimal 200 initial)))
     = Some (-56)
  /\ current_val_of (bit_boxes (snd (update_bits_from_decimal 200 initial)))
     <> Some 200.
Proof.
  split; [lia|]. split; [reflexivity|]. vm_compute. discriminate.
Qed.

(** ** [convert_to_base] *)

Lemma convert_to_base_steps (steps : nat) :
  forall (num base : Z) (result : string),
    2 <= base -> (Z.to_nat num <= steps)%nat ->
    convert_to_base_loop steps num base result <> Unfinished.
Proof.
  induction steps as [|steps IH]; intros num base result Hb Hs.
  - simpl. destruct (num >? 0) eqn:Hn; [|discriminate].
    apply Z.gtb_lt in Hn. lia.
  - cbn [convert_to_base_loop]. destruct (num >? 0) eqn:Hn; [|discriminate].
    apply Z.gtb_lt in Hn. unfold mod_, floordiv.
    destruct (base =? 0) eqn:Hz; [discriminate|].
    destruct (index digits (num mod base)); [|discriminate].
    apply IH; [exact Hb|].
    assert (num / base < num) by (apply Z.div_lt; lia).
    assert (0 <= num / base) by (apply Z.div_pos; lia).
    lia.
Qed.

(** More steps than the loop needs change nothing. *)
Lemma convert_to_base_loop_more (steps : nat) :
  forall (extra : nat) (num base : Z) (result : string),
    convert_to_base_loop steps num base result <> Unfinished ->
    convert_to_base_loop (steps + extra) num base result
    = convert_to_base_loop steps num base result.
Proof.
  induction steps as [|steps IH]; intros extra num base result Hfin.
  - simpl in Hfin. destruct extra as [|extra]; [reflexivity|].
    cbn [Nat.add convert_to_base_loop].
    destruct (num >? 0); [congruence | reflexivity].
  - cbn [Nat.add convert_to_base_loop] in *.
    destruct (num >? 0); [|reflexivity].
    destruct (mod_ num base) as [i|e|]; try reflexivity.
    destruct (index digits i) as [c|]; [|reflexivity].
    destruct (floordiv num base) as [num'|e|]; try reflexivity.
    apply IH, Hfin.
Qed.

Lemma convert_to_base_outcome (u base : Z) :
  0 <= u <= 255 -> 2 <= base <= 36 ->
  (exists s, convert_to_base u base = Ret s)
  \/ (convert_to_base u base = Raise IndexError /\ 16 < base).
Proof.
  intros Hu Hb.
  pose proof (between_all
    (fun u => forallb (conversion_outcome u) (between 2 36)) 0 255
    ltac:(vm_compute; reflexivity) u Hu) as H.
  cbv beta in H.
  pose proof (between_all _ 2 36 H base Hb) as Ho.
  unfold conversion_outcome in Ho.
  destruct (convert_to_base u base) as [s|[]|]; try discriminate.
  - left. now exists s.
  - right. split; [reflexivity|]. now apply Z.ltb_lt.
Qed.

(** For bases 2 to 16 the digit table suffices and the string reads back. *)
Lemma convert_to_base_reads_back (v base : Z) :
  0 <= v <= 255 -> 2 <= base <= 16 ->
  exists s, convert_to_base v base = Ret s /\ base_string_ok v base s = true.
Proof.
  intros Hv Hb.
  pose proof (between_all
    (fun v => forallb
       (fun base => match convert_to_base v base with
                    | Ret s => base_string_ok v base s
                    | _ => false
                    end) (between 2 16)) 0 255
    ltac:(vm_compute; reflexivity) v Hv) as H.
  cbv beta in H.
  pose proof (between_all _ 2 16 H base Hb) as Ho. cbv beta in Ho.
  destruct (convert_to_base v base) as [s| |]; try discriminate.
  now exists s.
Qed.

Lemma numeral_from_app (base : Z) (s1 s2 : string) : forall acc : Z,
  numeral_from base (s1 ++ s2) acc
  = match numeral_from base s1 acc with
    | Some a => numeral_from base s2 a
    | None => None
    end.
Proof.
  induction s1 as [|c s1 IH]; intros acc; [reflexivity|].
  simpl. destruct (digit_value c) as [d|]; [|reflexivity].
  destruct (d <? base); [apply IH | reflexivity].
Qed.

Lemma append_assoc (a b c : string) : (a ++ b) ++ c = a ++ (b ++ c).
Proof.
  induction a as [|x a IH]; simpl; [reflexivity|]. now rewrite IH.
Qed.

Lemma digits_value (d : Z) :
  0 <= d <= 15 ->
  exists c, index digits d = Some c /\ digit_value c = Some d.
Proof.
  intros Hd.
  pose proof (between_all
    (fun d => match index digits d with
              | Some c => match digit_value c with
                          | Some d' => d' =? d
                          | None => false
                          end
              | None => false
              end) 0 15 ltac:(vm_compute; reflexivity) d Hd) as H.
  cbv beta in H. destruct (index digits d) as [c|]; [|discriminate].
  exists c. split; [reflexivity|].
  destruct (digit_value c) as [d'|]; [|discriminate].
  apply Z.eqb_eq in H. now subst.
Qed.

(** With a base of 2 to 16 the loop finishes on every [num >= 0] and the
    digits it puts in front of [result] read back as [num]. *)
Lemma convert_to_base_loop_reads_back (steps : nat) :
  forall (num base : Z) (result : string),
    2 <= base <= 16 -> 0 <= num -> (Z.to_nat num <= steps)%nat ->
    exists pre,
      convert_to_base_loop steps num base result = Ret (pre ++ result)
      /\ numeral_from base pre 0 = Some num.
Proof.
  induction steps as [|steps IH]; intros num base result Hb Hn Hs.
  - assert (num = 0) by lia. subst num. exists "". split; reflexivity.
  - cbn [convert_to_base_loop]. destruct (num >? 0) eqn:Hpos.
    + apply Z.gtb_lt in Hpos. unfold mod_, floordiv.
      replace (base =? 0) with false by (symmetry; apply Z.eqb_neq; lia).
      pose proof (Z.mod_pos_bound num base ltac:(lia)) as Hm.
      destruct (digits_value (num mod base) ltac:(lia)) as (c & -> & Hc).
      assert (Hq : 0 <= num / base) by (apply Z.div_pos; lia).
      assert (Hlt : num / base < num) by (apply Z.div_lt; lia).
      destruct (IH (num / base) base (String c result) Hb Hq ltac:(lia))
        as (pre & -> & Hpre).
      exists (pre ++ String c ""). split.
      * rewrite append_assoc. reflexivity.
      * rewrite numeral_from_app, Hpre. cbn [numeral_from]. rewrite Hc.
        replace (num mod base <? base) with true
          by (symmetry; apply Z.ltb_lt; lia).
        f_equal. rewrite (Z.div_mod num base) at 3 by lia. reflexivity.
    + assert (num = 0) by (rewrite Z.gtb_ltb in Hpos; apply Z.ltb_ge in Hpos; lia).
      subst num. exists "". split; reflexivity.
Qed.

(** [convert_to_base] on every [num >= 0] with a base of 2 to 16: the string
    returned is a numeral of that base whose value is [num]. *)
Lemma convert_to_base_round_trip (num base : Z) :
  0 <= num -> 2 <= base <= 16 ->
  exists s, convert_to_base num base = Ret s /\ numeral base s = Some num.
Proof.
  intros Hn Hb. unfold convert_to_base, convert_to_base_in.
  destruct (Z.eqb_spec num 0) as [->|Hne].
  - exists "0". split; [reflexivity|]. unfold numeral. cbn.
    replace (0 <? base) with true by (symmetry; apply Z.ltb_lt; lia).
    f_equal. lia.
  - destruct (convert_to_base_loop_reads_back (Z.to_nat num) num base ""
                Hb Hn (Nat.le_refl _)) as (pre & Hloop & Hpre).
    exists (pre ++ ""). split; [exact Hloop|].
    assert (Hsame : pre ++ "" = pre).
    { clear. induction pre as [|x pre IH]; simpl; [reflexivity|].
      now rewrite IH. }
    rewrite Hsame. unfold numeral. destruct pre as [|x pre]; [|exact Hpre].
    cbn in Hpre. injection Hpre as Hz. lia.
Qed.

(** C2 at the input v = 35, base = 36: the claim asks for the string Z;
    [digits] has sixteen characters, so [digits[35]] raises. *)
Theorem convert_to_base_35_36 :
  0 <= 35 <= 255 /\ 2 <= 36 <= 36
  /\ convert_to_base 35 36 = Raise IndexError
  /\ base_string_ok 35 36 "Z" = true.
Proof.
  repeat split; try lia; reflexivity.
Qed.

(** ** [update_all_outputs] *)

Lemma update_explanation_sets (value : Z) (st : Tab) :
  exists E, update_explanation value st = (Ret tt, set_explanation_text E st).
Proof.
  unfold update_explanation, try_except, bind, gets, modify.
  destruct (decimal_input st =? "")%string.
  - cbn. destruct (division_radio st); eexists; reflexivity.
  - destruct (int (decimal_input st)) as [v|]; cbn.
    + destruct (division_radio st); eexists; reflexivity.
    + eexists; reflexivity.
Qed.

Lemma update_total_sum_label_sets (value : Z) (st : Tab) :
  bit_boxes st <> [] ->
  exists L, update_total_sum_label value st = (Ret tt, set_total_sum_label L st).
Proof.
  intros Hne. unfold update_total_sum_label, bind, gets, modify.
  destruct (bit_boxes st) as [|b bs] eqn:Hb; [congruence|].
  change (item (b :: bs) 0) with (Some b). cbn [or_raise ret].
  destruct (if BitBox.value b =? 1
            then MinusTwoToSeven :: active_terms (tl (b :: bs))
            else active_terms (b :: bs)); eexists; reflexivity.
Qed.

Lemma update_all_outputs_ret (value : Z) (st : Tab) (s : string) :
  convert_to_base (Z.land value 255) (base_selector (cards st)) = Ret s ->
  bit_boxes st <> [] ->
  exists E L,
    update_all_outputs value st
    = (Ret tt, set_total_sum_label L
                 (set_explanation_text E (on_cards (shown value s) st))).
Proof.
  intros Hc Hne.
  destruct (update_explanation_sets value (on_cards (shown value s) st))
    as [E HE].
  destruct (update_total_sum_label_sets value
              (set_explanation_text E (on_cards (shown value s) st)) Hne)
    as [L HL].
  exists E, L.
  unfold update_all_outputs, bind, modify, gets, lift. cbn.
  rewrite Hc.
  change (on_cards (set_custom_base_card s) _) with (on_cards (shown value s) st).
  rewrite HE. exact HL.
Qed.

Lemma update_all_outputs_raise (value : Z) (st : Tab) (e : exn) :
  convert_to_base (Z.land value 255) (base_selector (cards st)) = Raise e ->
  fst (update_all_outputs value st) = Raise e.
Proof.
  intros Hc. unfold update_all_outputs, bind, modify, gets, lift. cbn.
  rewrite Hc. reflexivity.
Qed.

Lemma update_all_outputs_raise_state (value : Z) (st : Tab) (e : exn) :
  convert_to_base (Z.land value 255) (base_selector (cards st)) = Raise e ->
  exists st',
    update_all_outputs value st = (Raise e, st')
    /\ st' = set_cards (cards st') st
    /\ base_selector (cards st') = base_selector (cards st).
Proof.
  intros Hc. unfold update_all_outputs, bind, modify, gets, lift. cbn.
  rewrite Hc. eexists. split; [reflexivity|]. split; reflexivity.
Qed.

(** ** [on_decimal_changed] *)

Lemma int_str (z : Z) : -255 <= z <= 255 -> int (str z) = Some z.
Proof.
  intros Hz.
  pose proof (between_all
    (fun z => match int (str z) with Some r => r =? z | None => false end)
    (-255) 255 ltac:(vm_compute; reflexivity) z Hz) as H.
  cbv beta in H. destruct (int (str z)) as [r|]; [|discriminate].
  apply Z.eqb_eq in H. now subst.
Qed.

Lemma on_decimal_changed_rejected (text : string) (st : Tab) :
  rejected text ->
  on_decimal_changed text st
  = (Ret tt, set_invert_button false (set_decimal_input_style RedBorder st)).
Proof.
  intros [Hne H]. unfold on_decimal_changed.
  apply String.eqb_neq in Hne. rewrite Hne.
  unfold try_except, bind. destruct H as [H|(v & H & Hv)]; rewrite H.
  - reflexivity.
  - cbn [or_raise ret].
    replace ((-128 <=? v) && (v <=? 255)) with false; [reflexivity|].
    symmetry. apply andb_false_iff.
    destruct Hv; [left; apply Z.leb_gt|right; apply Z.leb_gt]; lia.
Qed.

Lemma on_decimal_changed_accepts (text : string) (v : Z) (st : Tab) (s : string) :
  int text = Some v -> -128 <= v <= 255 ->
  map BitBox.power (bit_boxes st) = powers_7_0 ->
  convert_to_base (Z.land v 255) (base_selector (cards st)) = Ret s ->
  exists boxes E L,
    map BitBox.power boxes = powers_7_0
    /\ view boxes = combine powers_7_0 (bits_of (binary_str v))
    /\ on_decimal_changed text st
       = (Ret tt,
          set_invert_button (negb (v =? -128))
            (set_total_sum_label L
               (set_explanation_text E
                  (on_cards (shown v s)
                     (set_bit_boxes boxes
                        (set_decimal_input_style GreenBorder st)))))).
Proof.
  intros Hint Hv Hp Hc.
  assert (Hne : (text =? "")%string = false).
  { apply String.eqb_neq. intros ->. rewrite int_empty_text in Hint. discriminate. }
  pose (st1 := set_decimal_input_style GreenBorder st).
  destruct (update_bits_from_decimal_shows st1 v Hp)
    as (st2 & Hbits & Hst2 & Hp2 & Hs2).
  assert (Hne2 : bit_boxes st2 <> []).
  { intros H0. rewrite H0 in Hp2. discriminate. }
  destruct (update_all_outputs_ret v st2 s) as (E & L & Hout).
  { rewrite Hst2. exact Hc. }
  { exact Hne2. }
  exists (bit_boxes st2), E, L. split; [exact Hp2|]. split; [exact Hs2|].
  unfold on_decimal_changed. rewrite Hne.
  unfold try_except, bind at 1. rewrite Hint. cbn [or_raise ret].
  replace ((-128 <=? v) && (v <=? 255)) with true
    by (symmetry; apply andb_true_iff; split; apply Z.leb_le; lia).
  unfold bind at 1, modify at 1. fold st1.
  unfold bind at 1. rewrite Hbits.
  unfold bind at 1. rewrite Hout.
  rewrite Hst2 at 1 2.
  destruct (v =? -128); reflexivity.
Qed.

Lemma on_decimal_changed_raises (text : string) (v : Z) (st : Tab) :
  int text = Some v -> -128 <= v <= 255 ->
  map BitBox.power (bit_boxes st) = powers_7_0 ->
  convert_to_base (Z.land v 255) (base_selector (cards st)) = Raise IndexError ->
  fst (on_decimal_changed text st) = Raise IndexError.
Proof.
  intros Hint Hv Hp Hc.
  assert (Hne : (text =? "")%string = false).
  { apply String.eqb_neq. intros ->. rewrite int_empty_text in Hint. discriminate. }
  pose (st1 := set_decimal_input_style GreenBorder st).
  destruct (update_bits_from_decimal_shows st1 v Hp)
    as (st2 & Hbits & Hst2 & Hp2 & Hs2).
  pose proof (update_all_outputs_raise v st2 IndexError) as Hout.
  rewrite Hst2 in Hout at 1. specialize (Hout Hc).
  unfold on_decimal_changed. rewrite Hne.
  unfold try_except, bind at 1. rewrite Hint. cbn [or_raise ret].
  replace ((-128 <=? v) && (v <=? 255)) with true
    by (symmetry; apply andb_true_iff; split; apply Z.leb_le; lia).
  unfold bind at 1, modify at 1. fold st1.
  unfold bind at 1. rewrite Hbits.
  unfold bind at 1.
  destruct (update_all_outputs v st2) as [r st3]. simpl in Hout. subst r.
  reflexivity.
Qed.

(** ** Rejected input *)

(** C4, as amended: for every non-empty text that [int] rejects, and for
    every text that parses to an integer outside [-128, 255],
    [on_decimal_changed] returns normally and leaves the bit boxes, the four
    cards, the explanation and the sum label as they were; it only turns the
    border of the input red and disables the invert button. *)
Theorem rejected_input_keeps_bits (st : Tab) (text : string) :
  text <> "" ->
  (int text = None \/ exists v, int text = Some v /\ (v < -128 \/ 255 < v)) ->
  fst (on_decimal_changed text st) = Ret tt
  /\ bit_boxes (snd (on_decimal_changed text st)) = bit_boxes st
  /\ cards (snd (on_decimal_changed text st)) = cards st
  /\ explanation_text (snd (on_decimal_changed text st)) = explanation_text st
  /\ total_sum_label (snd (on_decimal_changed text st)) = total_sum_label st
  /\ decimal_input_style (snd (on_decimal_changed text st)) = RedBorder
  /\ invert_button (snd (on_decimal_changed text st)) = false.
Proof.
  intros Hne H.
  rewrite (on_decimal_changed_rejected text st (conj Hne H)).
  repeat split.
Qed.

Lemma rejected_input_keeps_bits_witness :
  fst (on_decimal_changed "300" initial) = Ret tt
  /\ bit_boxes (snd (on_decimal_changed "300" initial)) = bit_boxes initial
  /\ cards (snd (on_decimal_changed "300" initial)) = cards initial
  /\ explanation_text (snd (on_decimal_changed "300" initial))
     = explanation_text initial
  /\ total_sum_label (snd (on_decimal_changed "300" initial))
     = total_sum_label initial
  /\ decimal_input_style (snd (on_decimal_changed "300" initial)) = RedBorder
  /\ invert_button (snd (on_decimal_changed "300" initial)) = false.
Proof.
  apply (rejected_input_keeps_bits initial "300").
  - discriminate.
  - right. exists 300. split; [reflexivity | lia].
Defined.

(** C4 as stated fails at the empty text: [int("")] raises [ValueError], yet
    the handler takes the empty text for 0 and clears the boxes that showed
    5. *)
Lemma empty_input_clears_bits :
  int "" = None
  /\ map BitBox.value (bit_boxes (snd (run [decimal_input_setText "5"] initial)))
     = [0; 0; 0; 0; 0; 1; 0; 1]
  /\ map BitBox.value
       (bit_boxes (snd (run [decimal_input_setText "5";
                             decimal_input_setText ""] initial)))
     = [0; 0; 0; 0; 0; 0; 0; 0]
  /\ bit_boxes (snd (on_decimal_changed ""
                       (snd (run [decimal_input_setText "5"] initial))))
     <> bit_boxes (snd (run [decimal_input_setText "5"] initial)).
Proof.
  repeat split; try reflexivity. vm_compute. discriminate.
Qed.

(** ** The scenario of input 200 *)



(** ** The invert button *)




(** The input path of C8: an input that parses to -128 leaves the invert
    button disabled, and a click on it then changes nothing. *)
Lemma minus_128_input_disables_invert (st : Tab) (text : string) :
  well_formed st ->
  base_selector (cards st) <= 16 ->
  int text = Some (-128) ->
  exists st1,
    on_decimal_changed text st = (Ret tt, st1)
    /\ invert_button st1 = false
    /\ invert_button_click st1 = (Ret tt, st1).
Proof.
  intros [Hp Hb] Hb16 Hint.
  destruct (convert_to_base_outcome (Z.land (-128) 255)
              (base_selector (cards st)) (land_255_range _) Hb)
    as [[s Hc]|[_ Hlt]]; [|lia].
  destruct (on_decimal_changed_accepts text (-128) st s Hint ltac:(lia) Hp Hc)
    as (boxes & E & L & _ & _ & ->).
  eexists. split; [reflexivity|]. split; reflexivity.
Qed.

(** C8 on the manual path.  From the initial tab, the input 128 is accepted
    and leaves the invert button enabled; in manual mode two clicks on the
    box of power 0 restore the pattern 10000000, and
    [update_decimal_from_bits], which blocks the signal of the input and does
    not touch the button, writes -128.  The value is then -128 with the
    button enabled, and a click on it writes 128, which is accepted.  The
    same happens from the input 0 with one click on the box of power 7. *)
Theorem manual_minus_128_inverts_to_128 :
  fst (run [decimal_input_setText "128"; toggle_manual_mode true;
            on_bit_clicked 0; on_bit_clicked 0] initial) = Ret tt
  /\ decimal_input
       (snd (run [decimal_input_setText "128"; toggle_manual_mode true;
                  on_bit_clicked 0; on_bit_clicked 0] initial)) = "-128"
  /\ invert_button
       (snd (run [decimal_input_setText "128"; toggle_manual_mode true;
                  on_bit_clicked 0; on_bit_clicked 0] initial)) = true
  /\ fst (run [decimal_input_setText "128"; toggle_manual_mode true;
               on_bit_clicked 0; on_bit_clicked 0; invert_button_click]
            initial) = Ret tt
  /\ decimal_input
       (snd (run [decimal_input_setText "128"; toggle_manual_mode true;
                  on_bit_clicked 0; on_bit_clicked 0; invert_button_click]
               initial)) = "128"
  /\ decimal_input_style
       (snd (run [decimal_input_setText "128"; toggle_manual_mode true;
                  on_bit_clicked 0; on_bit_clicked 0; invert_button_click]
               initial)) = GreenBorder
  /\ decimal_input
       (snd (run [toggle_manual_mode true; on_bit_clicked 7] initial))
     = "-128"
  /\ invert_button
       (snd (run [toggle_manual_mode true; on_bit_clicked 7] initial)) = true
  /\ decimal_input
       (snd (run [toggle_manual_mode true; on_bit_clicked 7;
                  invert_button_click] initial)) = "128".
Proof.
  repeat split; vm_compute; reflexivity.
Qed.

(** ** Manual bit edits *)

Lemma toggle_twice (b : BitBox.t) : BitBox.toggle (BitBox.toggle b) = b.
Proof.
  destruct b as [p v [|]]; unfold BitBox.toggle, BitBox.set_value;
    cbn [BitBox.manual_mode BitBox.value BitBox.power]; [|reflexivity].
  replace (1 - (1 - v)) with v by lia. reflexivity.
Qed.

Lemma power_toggle (b : BitBox.t) :
  BitBox.power (BitBox.toggle b) = BitBox.power b.
Proof.
  unfold BitBox.toggle. destruct (BitBox.manual_mode b); reflexivity.
Qed.

Lemma toggle_first_twice (power : Z) (boxes : list BitBox.t) :
  toggle_first power (toggle_first power boxes) = boxes.
Proof.
  induction boxes as [|b bs IH]; [reflexivity|].
  simpl. destruct (BitBox.power b =? power) eqn:Hb; simpl.
  - rewrite power_toggle, Hb, toggle_twice. reflexivity.
  - rewrite Hb, IH. reflexivity.
Qed.

Lemma toggle_first_nonempty (power : Z) (boxes : list BitBox.t) :
  boxes <> [] -> toggle_first power boxes <> [].
Proof.
  destruct boxes as [|b bs]; [congruence|]. intros _. simpl.
  destruct (BitBox.power b =? power); discriminate.
Qed.

Lemma current_val_of_nonempty (boxes : list BitBox.t) :
  boxes <> [] -> exists current_val, current_val_of boxes = Some current_val.
Proof.
  destruct boxes as [|b bs]; [congruence|]. intros _.
  unfold current_val_of. change (item (b :: bs) 0) with (Some b).
  cbv beta iota zeta. destruct (BitBox.value b =? 1); eexists; reflexivity.
Qed.

Lemma on_bit_clicked_manual (power : Z) (st : Tab) (current_val : Z) :
  manual_mode st = true ->
  current_val_of (toggle_first power (bit_boxes st)) = Some current_val ->
  on_bit_clicked power st
  = update_all_outputs current_val
      (set_decimal_input (str current_val)
         (set_bit_boxes (toggle_first power (bit_boxes st)) st)).
Proof.
  intros Hm Hcv.
  unfold on_bit_clicked, bind at 1, gets at 1. rewrite Hm. cbn [negb].
  unfold bind at 1, modify at 1.
  unfold update_decimal_from_bits, bind at 1, gets at 1.
  cbn [manual_mode set_bit_boxes]. rewrite Hm. cbn [negb].
  unfold bind at 1, gets at 1. cbn [bit_boxes set_bit_boxes].
  unfold bind at 1. rewrite Hcv. cbn [or_raise ret].
  unfold bind at 1, modify at 1. reflexivity.
Qed.

(** One click in manual mode: the box of that power is toggled and the
    input takes the value read from the boxes, also when the handler raises,
    which it does only when the Base-N conversion does. *)
Lemma on_bit_clicked_outcome (power : Z) (st : Tab) :
  manual_mode st = true -> bit_boxes st <> [] ->
  2 <= base_selector (cards st) <= 36 ->
  exists current_val r st',
    current_val_of (toggle_first power (bit_boxes st)) = Some current_val
    /\ on_bit_clicked power st = (r, st')
    /\ bit_boxes st' = toggle_first power (bit_boxes st)
    /\ decimal_input st' = str current_val
    /\ manual_mode st' = true
    /\ base_selector (cards st') = base_selector (cards st)
    /\ (r = Ret tt \/ (r = Raise IndexError /\ 16 < base_selector (cards st)))
    /\ (base_selector (cards st) <= 16 -> r = Ret tt).
Proof.
  intros Hm Hne Hb.
  destruct (current_val_of_nonempty _ (toggle_first_nonempty power _ Hne))
    as [cv Hcv].
  exists cv.
  rewrite (on_bit_clicked_manual power st cv Hm Hcv).
  set (st1 := set_decimal_input (str cv) _).
  destruct (convert_to_base_outcome (Z.land cv 255) (base_selector (cards st))
              (land_255_range cv) Hb) as [[s Hc]|[Hc Hlt]].
  - destruct (update_all_outputs_ret cv st1 s Hc) as (E & L & ->).
    { apply (toggle_first_nonempty power _ Hne). }
    eexists. eexists. split; [exact Hcv|]. split; [reflexivity|].
    cbn. repeat split; auto.
  - destruct (update_all_outputs_raise_state cv st1 _ Hc)
      as (st' & -> & Hst' & Hbase).
    exists (Raise IndexError), st'. split; [exact Hcv|].
    split; [reflexivity|]. rewrite Hst'. cbn.
    repeat split; auto. intros Hle. lia.
Qed.

(** C3, as amended: in manual mode, from a tab whose input holds v and whose
    boxes show v, toggling the box of power p twice restores the boxes and
    leaves the input with v when v is in [-128, 127] and with v - 256 when v
    is in [128, 255].  Both handlers return normally when the base of the
    Base-N card is at most 16; with a larger base the conversion for that
    card can raise, after the input has taken its value. *)
Theorem double_toggle_restores (st : Tab) (v p : Z) :
  well_formed st ->
  manual_mode st = true ->
  int (decimal_input st) = Some v ->
  shows st v ->
  -128 <= v <= 255 ->
  0 <= p <= 7 ->
  int (decimal_input (snd (on_bit_clicked p (snd (on_bit_clicked p st)))))
  = Some (if v <=? 127 then v else v - 256)
  /\ bit_boxes (snd (on_bit_clicked p (snd (on_bit_clicked p st))))
     = bit_boxes st
  /\ (base_selector (cards st) <= 16 ->
      run [on_bit_clicked p; on_bit_clicked p] st
      = (Ret tt, snd (on_bit_clicked p (snd (on_bit_clicked p st))))).
Proof.
  intros [Hp Hb] Hm _ Hs Hv _.
  assert (Hne : bit_boxes st <> []).
  { intros H0. rewrite H0 in Hp. discriminate. }
  destruct (on_bit_clicked_outcome p st Hm Hne Hb)
    as (cv1 & r1 & st1 & _ & H1 & Hboxes1 & _ & Hm1 & Hb1 & _ & Hr1).
  assert (Hne1 : bit_boxes st1 <> []).
  { rewrite Hboxes1. apply (toggle_first_nonempty p _ Hne). }
  rewrite <- Hb1 in Hb.
  destruct (on_bit_clicked_outcome p st1 Hm1 Hne1 Hb)
    as (cv & r2 & st2 & Hcv & H2 & Hboxes2 & Htext2 & _ & _ & _ & Hr2).
  rewrite Hboxes1, toggle_first_twice in Hcv, Hboxes2.
  rewrite (shows_current_val st v Hs Hv) in Hcv. injection Hcv as <-.
  cbn [run]. unfold bind. rewrite H1. cbn [snd]. rewrite H2. cbn [snd].
  split; [|split; [exact Hboxes2|]].
  - rewrite Htext2. apply int_str. unfold wrap.
    destruct (v <=? 127) eqn:Hle; [|apply Z.leb_gt in Hle]; lia.
  - intros Hle. rewrite (Hr1 Hle), (Hr2 ltac:(lia)). reflexivity.
Qed.

Lemma double_toggle_restores_witness :
  int (decimal_input
         (snd (on_bit_clicked 3
                 (snd (on_bit_clicked 3
                         (snd (run [decimal_input_setText "5";
                                    toggle_manual_mode true] initial)))))))
  = Some 5
  /\ bit_boxes
       (snd (on_bit_clicked 3
               (snd (on_bit_clicked 3
                       (snd (run [decimal_input_setText "5";
                                  toggle_manual_mode true] initial))))))
     = bit_boxes (snd (run [decimal_input_setText "5";
                            toggle_manual_mode true] initial))
  /\ (10 <= 16 ->
      run [on_bit_clicked 3; on_bit_clicked 3]
        (snd (run [decimal_input_setText "5"; toggle_manual_mode true]
                initial))
      = (Ret tt,
         snd (on_bit_clicked 3
                (snd (on_bit_clicked 3
                        (snd (run [decimal_input_setText "5";
                                   toggle_manual_mode true] initial))))))).
Proof.
  apply (double_toggle_restores
           (snd (run [decimal_input_setText "5"; toggle_manual_mode true]
                   initial)) 5 3).
  - apply well_formedb_ok. vm_compute. reflexivity.
  - vm_compute. reflexivity.
  - vm_compute. reflexivity.
  - vm_compute. reflexivity.
  - lia.
  - lia.
Defined.

(** C3 as stated fails at v = 200, p = 0: after the two clicks the input
    holds -56. *)
Lemma double_toggle_200 :
  manual_mode (snd (run [decimal_input_setText "200"; toggle_manual_mode true]
                      initial)) = true
  /\ int (decimal_input
            (snd (run [decimal_input_setText "200"; toggle_manual_mode true]
                    initial))) = Some 200
  /\ fst (run [decimal_input_setText "200"; toggle_manual_mode true;
               on_bit_clicked 0; on_bit_clicked 0] initial) = Ret tt
  /\ decimal_input
       (snd (run [decimal_input_setText "200"; toggle_manual_mode true;
                  on_bit_clicked 0; on_bit_clicked 0] initial)) = "-56"
  /\ int (decimal_input
            (snd (run [decimal_input_setText "200"; toggle_manual_mode true;
                       on_bit_clicked 0; on_bit_clicked 0] initial)))
     <> Some 200.
Proof.
  repeat split; try (vm_compute; reflexivity). vm_compute. discriminate.
Qed.

(** ** The division method *)

Lemma division_rows_pos (n : Z) :
  0 < n -> division_rows n = (n, n / 2, n mod 2) :: division_rows (n / 2).
Proof.
  intros Hn. rewrite division_rows_equation_1.
  destruct (Z_gt_dec n 0); [reflexivity | lia].
Qed.

Lemma division_rows_nonpos (n : Z) : n <= 0 -> division_rows n = [].
Proof.
  intros Hn. rewrite division_rows_equation_1.
  destruct (Z_gt_dec n 0); [lia | reflexivity].
Qed.

Lemma halve_even (p : positive) :
  Z.pos p~0 / 2 = Z.pos p /\ Z.pos p~0 mod 2 = 0.
Proof.
  rewrite Pos2Z.inj_xO. split; Z.to_euclidean_division_equations; lia.
Qed.

Lemma halve_odd (p : positive) :
  Z.pos p~1 / 2 = Z.pos p /\ Z.pos p~1 mod 2 = 1.
Proof.
  rewrite Pos2Z.inj_xI. split; Z.to_euclidean_division_equations; lia.
Qed.

Lemma division_rows_even (p : positive) :
  division_rows (Z.pos p~0)
  = (Z.pos p~0, Z.pos p, 0) :: division_rows (Z.pos p).
Proof.
  rewrite division_rows_pos by lia.
  destruct (halve_even p) as [-> ->]. reflexivity.
Qed.

Lemma division_rows_odd (p : positive) :
  division_rows (Z.pos p~1)
  = (Z.pos p~1, Z.pos p, 1) :: division_rows (Z.pos p).
Proof.
  rewrite division_rows_pos by lia.
  destruct (halve_odd p) as [-> ->]. reflexivity.
Qed.

Lemma division_rows_one : division_rows 1 = [(1, 0, 1)].
Proof.
  reflexivity.
Qed.

Lemma division_rows_cons (p : positive) :
  exists row rest, division_rows (Z.pos p) = row :: rest.
Proof.
  rewrite division_rows_pos by lia. eexists. eexists. reflexivity.
Qed.

Lemma division_rows_trace (p : positive) :
  is_trace (Z.pos p) (division_rows (Z.pos p)).
Proof.
  induction p as [p IH|p IH|].
  - rewrite division_rows_odd. destruct (halve_odd p) as [Hq Hr].
    cbn [is_trace]. split; [reflexivity|].
    split; [symmetry; exact Hq|]. split; [symmetry; exact Hr|].
    destruct (division_rows_cons p) as (row & rest & Hrows).
    rewrite Hrows in *. split; [lia | exact IH].
  - rewrite division_rows_even. destruct (halve_even p) as [Hq Hr].
    cbn [is_trace]. split; [reflexivity|].
    split; [symmetry; exact Hq|]. split; [symmetry; exact Hr|].
    destruct (division_rows_cons p) as (row & rest & Hrows).
    rewrite Hrows in *. split; [lia | exact IH].
  - rewrite division_rows_one. cbn. repeat split.
Qed.

Lemma division_rows_remainders (p : positive) :
  remainders_bottom_up (division_rows (Z.pos p)) = pos_bits p.
Proof.
  induction p as [p IH|p IH|].
  - rewrite division_rows_odd. cbn [remainders_bottom_up pos_bits].
    rewrite IH. reflexivity.
  - rewrite division_rows_even. cbn [remainders_bottom_up pos_bits].
    rewrite IH. reflexivity.
  - reflexivity.
Qed.

Lemma pos_bits_value (p : positive) :
  numeral_from 2 (pos_bits p) 0 = Some (Z.pos p).
Proof.
  induction p as [p IH|p IH|]; cbn [pos_bits]; try reflexivity;
    rewrite numeral_from_app, IH; cbn; f_equal; lia.
Qed.

Lemma pos_bits_leading_one (p : positive) :
  exists rest, pos_bits p = String "1" rest.
Proof.
  induction p as [p [rest IH]|p [rest IH]|]; cbn [pos_bits].
  - rewrite IH. eexists. reflexivity.
  - rewrite IH. eexists. reflexivity.
  - eexists. reflexivity.
Qed.

(** The binary string of a non-negative number: digits 0 and 1 only, the
    value read back, and no leading zero. *)
Lemma bin_digits_minimal (v : Z) :
  0 <= v ->
  numeral 2 (slice_from 2 (bin v)) = Some v
  /\ leading_zero (slice_from 2 (bin v)) = false.
Proof.
  intros Hv. destruct v as [|p|p]; [split; reflexivity| |lia].
  cbn [bin slice_from append].
  destruct (pos_bits_leading_one p) as [rest Hp].
  assert (Hn : numeral 2 (pos_bits p) = numeral_from 2 (pos_bits p) 0)
    by (rewrite Hp; reflexivity).
  rewrite Hn, pos_bits_value. split; [reflexivity|].
  rewrite Hp. destruct rest; reflexivity.
Qed.

(** C5: for v in [0, 255] the division method shows a table whose rows are
    (dividend, dividend / 2, dividend mod 2), each starting from the half of
    the one before, down to the first row whose half is 0; v = 0 gives the
    single row (0, 0, 0).  The remainders read from the last row up are the
    binary string shown under the table, which is the binary numeral of v
    without leading zeros. *)
Theorem division_method_trace (v : Z) :
  0 <= v <= 255 ->
  exists rows,
    show_division_method v = DivisionTable v rows (remainders_bottom_up rows)
    /\ is_trace v rows
    /\ (v = 0 -> rows = [(0, 0, 0)])
    /\ numeral 2 (remainders_bottom_up rows) = Some v
    /\ leading_zero (remainders_bottom_up rows) = false
    /\ remainders_bottom_up rows = slice_from 2 (bin v).
Proof.
  intros [Hv _]. destruct (bin_digits_minimal v Hv) as [Hnum Hlead].
  destruct v as [|p|p]; [| |lia].
  - exists [(0, 0, 0)]. repeat split.
  - exists (division_rows (Z.pos p)).
    assert (Hrem : remainders_bottom_up (division_rows (Z.pos p))
                   = slice_from 2 (bin (Z.pos p))).
    { rewrite division_rows_remainders. reflexivity. }
    rewrite Hrem. repeat split; try assumption.
    + apply division_rows_trace.
    + discriminate.
Qed.

Lemma division_method_trace_witness :
  exists rows,
    show_division_method 6 = DivisionTable 6 rows (remainders_bottom_up rows)
    /\ is_trace 6 rows
    /\ (6 = 0 -> rows = [(0, 0, 0)])
    /\ numeral 2 (remainders_bottom_up rows) = Some 6
    /\ leading_zero (remainders_bottom_up rows) = false
    /\ remainders_bottom_up rows = slice_from 2 (bin 6).
Proof.
  apply (division_method_trace 6). lia.
Defined.

(** ** The powers of two method *)

Lemma powers_loop_greedy (powers : list Z) : forall (remaining : Z) (parts : list Z),
  fst (powers_loop powers remaining parts)
  = (parts ++ greedy powers remaining)%list.
Proof.
  induction powers as [|i rest IH]; intros remaining parts; simpl.
  - now rewrite app_nil_r.
  - rewrite Z.geb_leb. destruct (2 ^ i <=? remaining).
    + rewrite IH, <- app_assoc. reflexivity.
    + apply IH.
Qed.

Lemma greedy_sum (v : Z) :
  0 <= v <= 255 -> sum_of_powers (greedy powers_7_0 v) = v.
Proof.
  intros Hv.
  pose proof (between_all
    (fun v => sum_of_powers (greedy powers_7_0 v) =? v) 0 255
    ltac:(vm_compute; reflexivity) v Hv) as H.
  now apply Z.eqb_eq in H.
Qed.

(** C6: for v in [0, 255] the powers listed by the powers-of-two method are
    those a scan of 7 down to 0 takes, a power being taken when what remains
    of v is at least that power of two, and they sum to v.  For v = 0 the
    explanation lists no power; otherwise it is the sum term list with the
    binary string of v. *)
Theorem powers_method_sum (v : Z) :
  0 <= v <= 255 ->
  show_powers_method v
  = (if v =? 0 then PowersZero
     else PowersSum v (greedy powers_7_0 v) (slice_from 2 (bin v)))
  /\ selected_powers (show_powers_method v) = greedy powers_7_0 v
  /\ sum_of_powers (selected_powers (show_powers_method v)) = v.
Proof.
  intros Hv.
  assert (Hshow : show_powers_method v
                  = if v =? 0 then PowersZero
                    else PowersSum v (greedy powers_7_0 v)
                           (slice_from 2 (bin v))).
  { unfold show_powers_method.
    replace (v <? 0) with false by (symmetry; apply Z.ltb_ge; lia).
    destruct (v =? 0); [reflexivity|].
    change (range_down (num_bits - 1) (-1)) with powers_7_0.
    pose proof (powers_loop_greedy powers_7_0 v []) as Hg.
    destruct (powers_loop powers_7_0 v []) as [parts left_over].
    simpl in Hg. now subst parts. }
  rewrite Hshow. split; [reflexivity|].
  destruct (Z.eqb_spec v 0) as [->|Hne].
  - split; reflexivity.
  - split; [reflexivity|]. apply greedy_sum, Hv.
Qed.

Lemma powers_method_sum_witness :
  show_powers_method 200 = PowersSum 200 [7; 6; 3] "11001000"
  /\ selected_powers (show_powers_method 200) = [7; 6; 3]
  /\ sum_of_powers (selected_powers (show_powers_method 200)) = 200.
Proof.
  apply (powers_method_sum 200). lia.
Defined.

(** ** Quiz *)

(** C9: [check_quiz_answer] returns normally; when the text of the quiz
    input is not an integer the two counters keep their values, and when it
    parses to u the total grows by one and the score grows by one exactly
    when u equals the stored answer. *)
Theorem check_quiz_answer_counts (st : Tab) :
  fst (check_quiz_answer st) = Ret tt
  /\ match int (quiz_input (quiz st)) with
     | None =>
         quiz_total (quiz (snd (check_quiz_answer st))) = quiz_total (quiz st)
         /\ quiz_score (quiz (snd (check_quiz_answer st)))
            = quiz_score (quiz st)
     | Some u =>
         quiz_total (quiz (snd (check_quiz_answer st)))
         = quiz_total (quiz st) + 1
         /\ (u = quiz_answer (quiz st) ->
             quiz_score (quiz (snd (check_quiz_answer st)))
             = quiz_score (quiz st) + 1)
         /\ (u <> quiz_answer (quiz st) ->
             quiz_score (quiz (snd (check_quiz_answer st)))
             = quiz_score (quiz st))
     end.
Proof.
  unfold check_quiz_answer, try_except, bind, gets, modify.
  destruct (int (quiz_input (quiz st))) as [u|]; cbn.
  - destruct (Z.eqb_spec u (quiz_answer (quiz st))); cbn;
      repeat split; congruence.
  - repeat split.
Qed.

(** The quiz scenario: answer 77 shown as 01001101; 77 scores (1, 1); 76
    scores (0, 1); a text that is no integer counts nothing. *)
Lemma quiz_scenario :
  quiz_question (quiz (snd (start_quiz 77 initial)))
  = "What is 01001101 in decimal?"
  /\ quiz_label (quiz (snd (run [start_quiz 77;
                                 modify (on_quiz (set_quiz_input "77"));
                                 check_quiz_answer] initial))) = (1, 1)
  /\ quiz_label (quiz (snd (run [start_quiz 77;
                                 modify (on_quiz (set_quiz_input "76"));
                                 check_quiz_answer] initial))) = (0, 1)
  /\ quiz_total (quiz (snd (run [start_quiz 77;
                                 modify (on_quiz (set_quiz_input "7x"));
                                 check_quiz_answer] initial))) = 0.
Proof.
  repeat split; vm_compute; reflexivity.
Qed.

(** ** What [update_all_outputs] writes and what it leaves *)

Lemma update_explanation_full (value : Z) (st : Tab) :
  update_explanation value st
  = (Ret tt,
     set_explanation_text
       (explanation_of (decimal_input st) (division_radio st)) st).
Proof.
  unfold update_explanation, explanation_of, try_except, bind, gets, modify.
  destruct (decimal_input st =? "")%string.
  - cbn. destruct (division_radio st); reflexivity.
  - destruct (int (decimal_input st)) as [v|]; cbn.
    + destruct (division_radio st); reflexivity.
    + reflexivity.
Qed.

Lemma update_total_sum_label_full (value : Z) (st : Tab) :
  bit_boxes st <> [] ->
  update_total_sum_label value st
  = (Ret tt, set_total_sum_label (label_of (bit_boxes st) value) st).
Proof.
  intros Hne. unfold update_total_sum_label, label_of, sum_terms, bind, gets,
    modify.
  destruct (bit_boxes st) as [|b bs] eqn:Hb; [congruence|].
  change (item (b :: bs) 0) with (Some b). cbn [or_raise ret tl].
  destruct (if BitBox.value b =? 1
            then MinusTwoToSeven :: active_terms bs
            else active_terms (b :: bs)); reflexivity.
Qed.

Lemma update_all_outputs_full (value : Z) (st : Tab) (s : string) :
  convert_to_base (Z.land value 255) (base_selector (cards st)) = Ret s ->
  bit_boxes st <> [] ->
  update_all_outputs value st
  = (Ret tt,
     set_total_sum_label (label_of (bit_boxes st) value)
       (set_explanation_text
          (explanation_of (decimal_input st) (division_radio st))
          (on_cards (shown value s) st))).
Proof.
  intros Hc Hne.
  unfold update_all_outputs, bind, modify, gets, lift. cbn.
  rewrite Hc.
  change (on_cards (set_custom_base_card s) _) with (on_cards (shown value s) st).
  rewrite update_explanation_full.
  exact (update_total_sum_label_full value
           (set_explanation_text
              (explanation_of (decimal_input st) (division_radio st))
              (on_cards (shown value s) st)) Hne).
Qed.

Lemma update_all_outputs_core (value : Z) (st : Tab) :
  core (snd (update_all_outputs value st)) = core st.
Proof.
  destruct (convert_to_base (Z.land value 255) (base_selector (cards st)))
    as [s|e|] eqn:Hc.
  - destruct (bit_boxes st) as [|b bs] eqn:Hb.
    + unfold update_all_outputs, bind, modify, gets, lift. cbn.
      rewrite Hc. rewrite update_explanation_full.
      cbn. rewrite Hb. reflexivity.
    + rewrite (update_all_outputs_full value st s Hc); [reflexivity|].
      rewrite Hb. discriminate.
  - unfold update_all_outputs, bind, modify, gets, lift. cbn.
    rewrite Hc. reflexivity.
  - unfold update_all_outputs, bind, modify, gets, lift. cbn.
    rewrite Hc. reflexivity.
Qed.

(** ** What the handlers keep *)

Lemma core_fields (st st' : Tab) :
  core st' = core st ->
  decimal_input st' = decimal_input st
  /\ decimal_input_style st' = decimal_input_style st
  /\ decimal_input_read_only st' = decimal_input_read_only st
  /\ invert_button st' = invert_button st
  /\ manual_mode st' = manual_mode st
  /\ bit_boxes st' = bit_boxes st
  /\ base_selector (cards st') = base_selector (cards st)
  /\ division_radio st' = division_radio st
  /\ quiz st' = quiz st.
Proof.
  unfold core. intros H. injection H as H1 H2 H3 H4 H5 H6 H7 H8 H9.
  repeat split; assumption.
Qed.

Lemma update_all_outputs_kept (value : Z) (st : Tab) :
  kept (snd (update_all_outputs value st)) = kept st
  /\ bit_boxes (snd (update_all_outputs value st)) = bit_boxes st.
Proof.
  destruct (core_fields _ _ (update_all_outputs_core value st))
    as (H1 & H2 & H3 & H4 & H5 & H6 & H7 & H8 & H9).
  unfold kept. rewrite H1, H3, H5, H7, H8, H9. split; [reflexivity|exact H6].
Qed.

Lemma then_invert_kept (value : Z) (b : bool) (st : Tab) :
  kept (snd ((update_all_outputs value ;; modify (set_invert_button b)) st))
  = kept st
  /\ bit_boxes (snd ((update_all_outputs value ;;
                      modify (set_invert_button b)) st)) = bit_boxes st.
Proof.
  destruct (update_all_outputs_kept value st) as [Hk Hb]. unfold bind.
  destruct (update_all_outputs value st) as [[u|e|] st1]; cbn [snd] in *;
    split; assumption.
Qed.

(** Writing the bits of [value] and then running [c], which leaves the
    boxes alone. *)
Lemma write_then_kept (value : Z) (c : M unit) (st : Tab) :
  List.length (bit_boxes st) = 8%nat ->
  (forall s, kept (snd (c s)) = kept s
             /\ bit_boxes (snd (c s)) = bit_boxes s) ->
  kept (snd ((update_bits_from_decimal value ;; c) st)) = kept st
  /\ bit_boxes (snd ((update_bits_from_decimal value ;; c) st))
     = write_bits (binary_str value) (bit_boxes st).
Proof.
  intros Hlen Hc. unfold bind.
  rewrite (update_bits_from_decimal_writes st value Hlen).
  destruct (Hc (set_bit_boxes (write_bits (binary_str value) (bit_boxes st))
                  st)) as [Hk Hb].
  split; [rewrite Hk; reflexivity | rewrite Hb; reflexivity].
Qed.

(** Whatever the text, [on_decimal_changed] leaves the boxes as they were or
    with the bits of some value written into them, and touches neither the
    text, the modes, the base nor the quiz. *)
Lemma on_decimal_changed_keeps (text : string) (st : Tab) :
  List.length (bit_boxes st) = 8%nat ->
  kept (snd (on_decimal_changed text st)) = kept st
  /\ (bit_boxes (snd (on_decimal_changed text st)) = bit_boxes st
      \/ exists v,
           bit_boxes (snd (on_decimal_changed text st))
           = write_bits (binary_str v) (bit_boxes st)).
Proof.
  intros Hlen.
  enough (H : forall o, o = on_decimal_changed text st ->
                kept (snd o) = kept st
                /\ (bit_boxes (snd o) = bit_boxes st
                    \/ exists v, bit_boxes (snd o)
                                 = write_bits (binary_str v) (bit_boxes st)))
    by (apply H; reflexivity).
  intros o Ho. unfold on_decimal_changed in Ho.
  destruct (text =? "")%string.
  - destruct (write_then_kept 0 (update_all_outputs 0)
                (set_invert_button true
                   (set_decimal_input_style GreenBorder st)) Hlen
                (update_all_outputs_kept 0)) as [Hk Hb].
    subst o. split; [exact Hk | right; exists 0; exact Hb].
  - unfold try_except, bind at 1 in Ho. destruct (int text) as [value|].
    + cbn [or_raise ret] in Ho.
      destruct ((-128 <=? value) && (value <=? 255)).
      * unfold bind at 1, modify at 1 in Ho.
        destruct (write_then_kept value
                    (update_all_outputs value ;;
                     (if value =? -128 then modify (set_invert_button false)
                      else modify (set_invert_button true)))
                    (set_decimal_input_style GreenBorder st) Hlen)
          as [Hk Hb].
        { intros s. destruct (value =? -128); apply then_invert_kept. }
        destruct ((update_bits_from_decimal value ;; _) _)
          as [[u|[]|] st']; subst o; cbn [snd] in *;
          (split; [exact Hk | right; exists value; exact Hb]).
      * subst o. cbn. split; [reflexivity | left; reflexivity].
    + subst o. cbn. split; [reflexivity | left; reflexivity].
Qed.

(** ** The invariant of the tab *)

Lemma preserves_ret {A : Type} (a : A) : preserves (ret a).
Proof.
  intros st H. exact H.
Qed.

Lemma preserves_bind {A B : Type} (c : M A) (k : A -> M B) :
  preserves c -> (forall a, preserves (k a)) -> preserves (bind c k).
Proof.
  intros Hc Hk st H. unfold bind. specialize (Hc st H).
  destruct (c st) as [[a|e|] st']; cbn [snd] in *; [|exact Hc|exact Hc].
  apply Hk, Hc.
Qed.

Lemma preserves_gets {A : Type} (f : Tab -> A) : preserves (gets f).
Proof.
  intros st H. exact H.
Qed.

Lemma preserves_or_raise {A : Type} (e : exn) (o : option A) :
  preserves (or_raise e o).
Proof.
  intros st H. destruct o; exact H.
Qed.

Lemma preserves_lift {A : Type} (r : res A) : preserves (lift r).
Proof.
  intros st H. exact H.
Qed.

Lemma preserves_try_except {A : Type} (c : M A) (e : exn) (handler : M A) :
  preserves c -> preserves handler -> preserves (try_except c e handler).
Proof.
  intros Hc Hh st H. unfold try_except. specialize (Hc st H).
  destruct (c st) as [[a|e'|] st']; cbn [snd] in *; try exact Hc.
  destruct (exn_eqb e e'); [apply Hh, Hc | exact Hc].
Qed.

Lemma preserves_if {A : Type} (b : bool) (c1 c2 : M A) :
  preserves c1 -> preserves c2 -> preserves (if b then c1 else c2).
Proof.
  destruct b; auto.
Qed.

Lemma invariant_core (st st' : Tab) :
  core st' = core st -> invariant st -> invariant st'.
Proof.
  intros Hc. apply core_fields in Hc.
  destruct Hc as (H1 & H2 & H3 & H4 & H5 & H6 & H7 & H8 & H9).
  unfold invariant, well_formed. rewrite H3, H5, H6, H7, H9. auto.
Qed.

Lemma preserves_update_all_outputs (value : Z) :
  preserves (update_all_outputs value).
Proof.
  intros st H. exact (invariant_core _ _ (update_all_outputs_core value st) H).
Qed.

Lemma preserves_update_explanation (value : Z) :
  preserves (update_explanation value).
Proof.
  intros st H. rewrite update_explanation_full. exact H.
Qed.

Lemma bit_of_is_bit (c : ascii) :
  is_bit c = true -> bit_of c = 0 \/ bit_of c = 1.
Proof.
  unfold is_bit, bit_of. intros H. apply orb_true_iff in H.
  destruct H as [H|H]; apply Z.eqb_eq in H; lia.
Qed.

Lemma write_bits_box_ok (manual : bool) (s : string) :
  forall boxes : list BitBox.t,
    forallb is_bit (list_ascii_of_string s) = true ->
    Forall (box_ok manual) boxes ->
    Forall (box_ok manual) (write_bits s boxes).
Proof.
  induction s as [|c rest IH]; intros boxes Hs Hb; [exact Hb|].
  simpl in Hs. apply andb_true_iff in Hs. destruct Hs as [Hc Hrest].
  destruct boxes as [|b bs]; [exact Hb|].
  inversion Hb as [|b' bs' Hbox Hbs]; subst. destruct Hbox as [_ Hm].
  simpl. constructor.
  - split; [apply bit_of_is_bit, Hc | exact Hm].
  - apply IH; assumption.
Qed.

Lemma preserves_update_bits_from_decimal (value : Z) :
  preserves (update_bits_from_decimal value).
Proof.
  intros st (Hwf & Hboxes & Hro & Hq).
  rewrite update_bits_from_decimal_writes
    by (apply well_formed_length, Hwf).
  destruct Hwf as [Hp Hb].
  unfold invariant, well_formed. cbn.
  rewrite powers_write_bits. repeat split; try assumption; try apply Hb.
  apply write_bits_box_ok; [apply binary_str_shape | exact Hboxes].
  all: apply Hq.
Qed.

Lemma preserves_on_decimal_changed (text : string) :
  preserves (on_decimal_changed text).
Proof.
  assert (Hinv : forall b, preserves (modify (set_invert_button b)))
    by (intros b st H; exact H).
  assert (Hsty : forall b, preserves (modify (set_decimal_input_style b)))
    by (intros b st H; exact H).
  unfold on_decimal_changed. apply preserves_if.
  - apply preserves_bind; [apply Hsty|intros _].
    apply preserves_bind; [apply Hinv|intros _].
    apply preserves_bind; [apply preserves_update_bits_from_decimal|intros _].
    apply preserves_update_all_outputs.
  - apply preserves_try_except.
    + apply preserves_bind; [apply preserves_or_raise|]. intros value.
      apply preserves_if.
      * apply preserves_bind; [apply Hsty|intros _].
        apply preserves_bind;
          [apply preserves_update_bits_from_decimal|intros _].
        apply preserves_bind; [apply preserves_update_all_outputs|intros _].
        apply preserves_if; apply Hinv.
      * apply preserves_bind; [apply Hsty|intros _; apply Hinv].
    + apply preserves_bind; [apply Hsty|intros _; apply Hinv].
Qed.

Lemma preserves_decimal_input_setText (text : string) :
  preserves (decimal_input_setText text).
Proof.
  unfold decimal_input_setText, textChanged.
  apply preserves_bind; [apply preserves_gets|]. intros old.
  apply preserves_if; [apply preserves_ret|].
  apply preserves_bind; [intros st H; exact H|]. intros _.
  apply preserves_on_decimal_changed.
Qed.

Lemma toggle_box_ok (manual : bool) (b : BitBox.t) :
  box_ok manual b -> box_ok manual (BitBox.toggle b).
Proof.
  intros [Hv Hm]. unfold BitBox.toggle, box_ok.
  destruct (BitBox.manual_mode b) eqn:Hbm; [|rewrite Hbm; auto].
  unfold BitBox.set_value. cbn [BitBox.value BitBox.manual_mode].
  split; [lia | rewrite Hbm; exact Hm].
Qed.

Lemma toggle_first_box_ok (manual : bool) (power : Z) (boxes : list BitBox.t) :
  Forall (box_ok manual) boxes ->
  Forall (box_ok manual) (toggle_first power boxes).
Proof.
  induction 1 as [|b bs Hb Hbs IH]; simpl; [constructor|].
  destruct (BitBox.power b =? power); constructor; auto.
  apply toggle_box_ok, Hb.
Qed.

Lemma toggle_first_powers (power : Z) (boxes : list BitBox.t) :
  map BitBox.power (toggle_first power boxes) = map BitBox.power boxes.
Proof.
  induction boxes as [|b bs IH]; simpl; [reflexivity|].
  destruct (BitBox.power b =? power); simpl.
  - now rewrite power_toggle.
  - now rewrite IH.
Qed.

Lemma toggle_at_box_ok (manual : bool) (boxes : list BitBox.t) :
  forall i : nat,
    Forall (box_ok manual) boxes -> Forall (box_ok manual) (toggle_at i boxes).
Proof.
  induction boxes as [|b bs IH]; intros i H; [destruct i; constructor|].
  inversion H as [|b' bs' Hb Hbs]; subst.
  destruct i as [|i]; simpl; constructor; auto.
  apply toggle_box_ok, Hb.
Qed.

Lemma toggle_at_powers (boxes : list BitBox.t) : forall i : nat,
  map BitBox.power (toggle_at i boxes) = map BitBox.power boxes.
Proof.
  induction boxes as [|b bs IH]; intros [|i]; simpl; try reflexivity.
  - now rewrite power_toggle.
  - now rewrite IH.
Qed.

Lemma preserves_update_decimal_from_bits : preserves update_decimal_from_bits.
Proof.
  unfold update_decimal_from_bits.
  apply preserves_bind; [apply preserves_gets|]. intros manual.
  apply preserves_if; [apply preserves_ret|].
  apply preserves_bind; [apply preserves_gets|]. intros boxes.
  apply preserves_bind; [apply preserves_or_raise|]. intros current_val.
  apply preserves_bind; [intros st H; exact H|]. intros _.
  apply preserves_update_all_outputs.
Qed.

Lemma preserves_on_bit_clicked (power : Z) : preserves (on_bit_clicked power).
Proof.
  unfold on_bit_clicked.
  apply preserves_bind; [apply preserves_gets|]. intros manual.
  apply preserves_if; [apply preserves_ret|].
  apply preserves_bind; [|intros _; apply preserves_update_decimal_from_bits].
  intros st ((Hp & Hb) & Hboxes & Hro & Hq).
  unfold invariant, well_formed. cbn.
  rewrite toggle_first_powers. repeat split; try assumption; try apply Hb;
    try apply Hq.
  apply toggle_first_box_ok, Hboxes.
Qed.

Lemma preserves_bit_box_toggle (i : nat) : preserves (bit_box_toggle i).
Proof.
  intros st ((Hp & Hb) & Hboxes & Hro & Hq).
  unfold invariant, well_formed. cbn.
  rewrite toggle_at_powers. repeat split; try assumption; try apply Hb;
    try apply Hq.
  apply toggle_at_box_ok, Hboxes.
Qed.

Lemma preserves_toggle_manual_mode (state : bool) :
  preserves (toggle_manual_mode state).
Proof.
  intros st ((Hp & Hb) & Hboxes & Hro & Hq).
  unfold invariant, well_formed. cbn.
  rewrite map_map. cbn. repeat split; try assumption; try apply Hb;
    try apply Hq.
  apply Forall_map. eapply Forall_impl; [|exact Hboxes].
  intros b [Hv _]. split; [exact Hv | reflexivity].
Qed.

Lemma preserves_invert_button_click : preserves invert_button_click.
Proof.
  unfold invert_button_click, invert_sign.
  apply preserves_bind; [apply preserves_gets|]. intros enabled.
  apply preserves_if; [|apply preserves_ret].
  apply preserves_try_except; [|apply preserves_ret].
  apply preserves_bind; [apply preserves_gets|]. intros text.
  apply preserves_bind; [apply preserves_or_raise|]. intros value.
  apply preserves_decimal_input_setText.
Qed.

Lemma preserves_base_selector_setValue (base : Z) :
  preserves (base_selector_setValue base).
Proof.
  unfold base_selector_setValue.
  apply preserves_bind; [apply preserves_gets|]. intros old.
  apply preserves_bind.
  - intros st ((Hp & Hb) & Hboxes & Hro & Hq).
    unfold invariant, well_formed. cbn. repeat split; try assumption; lia.
  - intros _. apply preserves_if;
      [apply preserves_ret | apply preserves_update_all_outputs].
Qed.

Lemma preserves_check_quiz_answer : preserves check_quiz_answer.
Proof.
  intros st (Hwf & Hboxes & Hro & Hq).
  unfold check_quiz_answer, try_except, bind, gets, modify.
  destruct (int (quiz_input (quiz st))) as [u|]; cbn.
  - destruct (u =? quiz_answer (quiz st)); cbn;
      unfold invariant, well_formed; cbn; repeat split;
      try assumption; try apply Hwf; lia.
  - unfold invariant, well_formed; cbn; repeat split;
      try assumption; try apply Hwf; lia.
Qed.

Lemma preserves_slot (e : Event) : preserves (slot e).
Proof.
  destruct e; cbn [slot].
  - unfold decimal_input_edit.
    apply preserves_bind; [apply preserves_gets|]. intros ro.
    apply preserves_if;
      [apply preserves_ret | apply preserves_decimal_input_setText].
  - apply preserves_bit_box_toggle.
  - apply preserves_on_bit_clicked.
  - apply preserves_toggle_manual_mode.
  - apply preserves_invert_button_click.
  - apply preserves_base_selector_setValue.
  - unfold mode_group_buttonClicked.
    apply preserves_bind; [intros st H; exact H|]. intros _.
    apply preserves_update_explanation.
  - intros st H. exact H.
  - intros st H. exact H.
  - unfold quiz_submit_click.
    apply preserves_bind; [apply preserves_gets|]. intros enabled.
    apply preserves_if; [apply preserves_check_quiz_answer|apply preserves_ret].
Qed.

Lemma initial_invariant : invariant initial.
Proof.
  unfold invariant. split; [apply well_formedb_ok; vm_compute; reflexivity|].
  split; [|split; [vm_compute; reflexivity | vm_compute; split; discriminate]].
  change (bit_boxes initial) with (map BitBox.init powers_7_0).
  change (manual_mode initial) with false.
  repeat constructor.
Qed.

Lemma preserves_run (events : list Event) : preserves (run (map slot events)).
Proof.
  induction events as [|e rest IH]; [apply preserves_ret|].
  cbn [map run]. apply preserves_bind; [apply preserves_slot|].
  intros _. exact IH.
Qed.

Lemma invariant_after (events : list Event) : invariant (after events).
Proof.
  apply preserves_run, initial_invariant.
Qed.

(** X1: in every state the tab reaches from its initial state, through any
    sequence of edits, clicks and selections (also one cut short by an
    exception), the eight boxes keep the powers 7 down to 0, every box holds
    0 or 1, the boxes honour clicks and the input is read-only exactly in
    manual mode, the base stays within 2..36, and the quiz score stays
    between 0 and the number of attempts. *)
Theorem reachable_invariant (events : list Event) :
  invariant (after events).
Proof.
  exact (invariant_after events).
Qed.

(** ** The tab after an accepted input, in full *)

Lemma on_decimal_changed_accepts_full
  (text : string) (v : Z) (st : Tab) (s : string) :
  int text = Some v -> -128 <= v <= 255 ->
  map BitBox.power (bit_boxes st) = powers_7_0 ->
  convert_to_base (Z.land v 255) (base_selector (cards st)) = Ret s ->
  on_decimal_changed text st
  = (Ret tt,
     set_invert_button (negb (v =? -128))
       (set_total_sum_label
          (label_of (write_bits (binary_str v) (bit_boxes st)) v)
          (set_explanation_text
             (explanation_of (decimal_input st) (division_radio st))
             (on_cards (shown v s)
                (set_bit_boxes (write_bits (binary_str v) (bit_boxes st))
                   (set_decimal_input_style GreenBorder st)))))).
Proof.
  intros Hint Hv Hp Hc.
  assert (Hne : (text =? "")%string = false).
  { apply String.eqb_neq. intros ->. rewrite int_empty_text in Hint.
    discriminate. }
  pose proof (well_formed_length st Hp) as Hlen.
  assert (Hne2 : write_bits (binary_str v) (bit_boxes st) <> []).
  { intros H0. apply (f_equal (map BitBox.power)) in H0.
    rewrite powers_write_bits, Hp in H0. discriminate. }
  unfold on_decimal_changed. rewrite Hne.
  unfold try_except, bind at 1. rewrite Hint. cbn [or_raise ret].
  replace ((-128 <=? v) && (v <=? 255)) with true
    by (symmetry; apply andb_true_iff; split; apply Z.leb_le; lia).
  pose (st1 := set_decimal_input_style GreenBorder st).
  pose (st2 := set_bit_boxes (write_bits (binary_str v) (bit_boxes st)) st1).
  assert (Hbits : update_bits_from_decimal v st1 = (Ret tt, st2))
    by exact (update_bits_from_decimal_writes st1 v Hlen).
  assert (Hout : update_all_outputs v st2
                 = (Ret tt,
                    set_total_sum_label
                      (label_of (write_bits (binary_str v) (bit_boxes st)) v)
                      (set_explanation_text
                         (explanation_of (decimal_input st) (division_radio st))
                         (on_cards (shown v s) st2))))
    by exact (update_all_outputs_full v st2 s Hc Hne2).
  unfold bind at 1, modify at 1. fold st1.
  unfold bind at 1. rewrite Hbits.
  unfold bind at 1. rewrite Hout.
  destruct (v =? -128); reflexivity.
Qed.

Lemma land_255_mod (v : Z) : Z.land v 255 = v mod 256.
Proof.
  change (Z.land v 255) with (Z.land v (Z.ones 8)).
  rewrite Z.land_ones by lia. reflexivity.
Qed.

Lemma values_of_view (boxes : list BitBox.t) (powers bits : list Z) :
  view boxes = combine powers bits ->
  List.length powers = List.length bits ->
  map BitBox.value boxes = bits.
Proof.
  intros Hv Hlen. apply (f_equal (map snd)) in Hv. unfold view in Hv.
  rewrite map_map in Hv.
  change (map BitBox.value boxes = map snd (combine powers bits)) in Hv.
  rewrite Hv. clear Hv. revert bits Hlen.
  induction powers as [|p ps IH]; intros [|b bs] Hlen; simpl in *;
    try discriminate; [reflexivity|].
  f_equal. apply IH. lia.
Qed.

Lemma formats_read_back (u : Z) :
  0 <= u <= 255 ->
  numeral 2 (format_b 8 u) = Some u
  /\ numeral 8 (format_o u) = Some u
  /\ numeral 16 (upper (format_x u)) = Some u.
Proof.
  intros Hu.
  pose proof (between_all
    (fun u =>
       match numeral 2 (format_b 8 u), numeral 8 (format_o u),
             numeral 16 (upper (format_x u)) with
       | Some a, Some b, Some c => (a =? u) && (b =? u) && (c =? u)
       | _, _, _ => false
       end) 0 255 ltac:(vm_compute; reflexivity) u Hu) as H.
  cbv beta in H.
  destruct (numeral 2 (format_b 8 u)) as [a|]; [|discriminate].
  destruct (numeral 8 (format_o u)) as [b|]; [|discriminate].
  destruct (numeral 16 (upper (format_x u))) as [c|]; [|discriminate].
  apply andb_true_iff in H. destruct H as [H Hc].
  apply andb_true_iff in H. destruct H as [Ha Hb].
  apply Z.eqb_eq in Ha, Hb, Hc. subst. repeat split.
Qed.

(** X2: after an accepted input v, with a base of at most 16 in the Base-N
    card, the boxes and the four cards denote one number, v mod 256: the
    boxes hold the characters of the binary card bit by bit, and the binary,
    octal, hex and Base-N strings read back to v mod 256 in their bases. *)
Theorem accepted_input_cards_agree (st : Tab) (text : string) (v : Z) :
  map BitBox.power (bit_boxes st) = powers_7_0 ->
  2 <= base_selector (cards st) <= 16 ->
  int text = Some v ->
  -128 <= v <= 255 ->
  fst (on_decimal_changed text st) = Ret tt
  /\ map BitBox.value (bit_boxes (snd (on_decimal_changed text st)))
     = bits_of (binary_card (cards (snd (on_decimal_changed text st))))
  /\ numeral 2 (binary_card (cards (snd (on_decimal_changed text st))))
     = Some (v mod 256)
  /\ numeral 8 (octal_card (cards (snd (on_decimal_changed text st))))
     = Some (v mod 256)
  /\ numeral 16 (upper (hex_card (cards (snd (on_decimal_changed text st)))))
     = Some (v mod 256)
  /\ numeral (base_selector (cards st))
       (custom_base_card (cards (snd (on_decimal_changed text st))))
     = Some (v mod 256).
Proof.
  intros Hp Hb Hint Hv.
  pose proof (land_255_range v) as Hu.
  destruct (convert_to_base_round_trip (Z.land v 255)
              (base_selector (cards st)) ltac:(lia) Hb) as (s & Hc & Hs).
  rewrite (on_decimal_changed_accepts_full text v st s Hint Hv Hp Hc).
  destruct (formats_read_back (Z.land v 255) Hu) as (H2 & H8 & H16).
  rewrite <- land_255_mod. cbn. repeat split; try assumption.
  apply values_of_view with (powers := powers_7_0).
  - rewrite view_write_bits, Hp; [reflexivity|].
    destruct (binary_str_shape v) as [_ ->].
    now rewrite (well_formed_length st Hp).
  - unfold bits_of. rewrite length_map.
    change (format_b 8 (Z.land v 255)) with (binary_str v).
    destruct (binary_str_shape v) as [_ Hl].
    clear -Hl. revert Hl. generalize (binary_str v). intros s Hl.
    assert (Hll : List.length (list_ascii_of_string s) = String.length s).
    { clear. induction s as [|c s IH]; simpl; [reflexivity|]. now rewrite IH. }
    rewrite Hll, Hl. reflexivity.
Qed.

Lemma accepted_input_cards_agree_witness :
  fst (on_decimal_changed "-1" initial) = Ret tt
  /\ map BitBox.value (bit_boxes (snd (on_decimal_changed "-1" initial)))
     = bits_of (binary_card (cards (snd (on_decimal_changed "-1" initial))))
  /\ numeral 2 (binary_card (cards (snd (on_decimal_changed "-1" initial))))
     = Some 255
  /\ numeral 8 (octal_card (cards (snd (on_decimal_changed "-1" initial))))
     = Some 255
  /\ numeral 16
       (upper (hex_card (cards (snd (on_decimal_changed "-1" initial)))))
     = Some 255
  /\ numeral 10
       (custom_base_card (cards (snd (on_decimal_changed "-1" initial))))
     = Some 255.
Proof.
  apply (accepted_input_cards_agree initial "-1" (-1)).
  - reflexivity.
  - vm_compute. split; discriminate.
  - reflexivity.
  - lia.
Defined.

Lemma active_terms_view (boxes : list BitBox.t) :
  active_terms boxes = active_terms (of_view (view boxes)).
Proof.
  induction boxes as [|b bs IH]; [reflexivity|].
  simpl. destruct (BitBox.value b =? 1); now rewrite IH.
Qed.

Lemma sum_terms_view (boxes : list BitBox.t) :
  sum_terms boxes = sum_terms (of_view (view boxes)).
Proof.
  destruct boxes as [|b bs]; [reflexivity|].
  unfold sum_terms. cbn [view of_view map BitBox.value].
  destruct (BitBox.value b =? 1).
  - f_equal. apply (active_terms_view bs).
  - apply (active_terms_view (b :: bs)).
Qed.

Lemma sum_terms_pattern (v : Z) :
  -128 <= v <= 255 ->
  terms_total (sum_terms (of_view (combine powers_7_0 (bits_of (binary_str v)))))
  = wrap v
  /\ (sum_terms (of_view (combine powers_7_0 (bits_of (binary_str v)))) = []
      <-> v = 0).
Proof.
  intros Hv.
  pose proof (between_all
    (fun v =>
       let parts :=
         sum_terms (of_view (combine powers_7_0 (bits_of (binary_str v)))) in
       (terms_total parts =? wrap v)
       && match parts with
          | [] => v =? 0
          | _ :: _ => negb (v =? 0)
          end) (-128) 255 ltac:(vm_compute; reflexivity) v Hv) as H.
  cbv beta zeta in H. apply andb_true_iff in H. destruct H as [Ht He].
  apply Z.eqb_eq in Ht. split; [exact Ht|].
  destruct (sum_terms _) as [|t ts].
  - apply Z.eqb_eq in He. split; auto.
  - apply negb_true_iff, Z.eqb_neq in He. split; [discriminate | contradiction].
Qed.

(** X3: after an accepted input v (base of the Base-N card at most 16) the
    sum label lists the terms of the active boxes, with -2^7 for a set top
    box; the terms add up to v when v <= 127 and to v - 256 when v >= 128,
    while the label shows v itself after the equals sign.  For v = 0 the
    label is the fixed text for no active bits. *)
Theorem accepted_input_sum_label (st : Tab) (text : string) (v : Z) :
  map BitBox.power (bit_boxes st) = powers_7_0 ->
  2 <= base_selector (cards st) <= 16 ->
  int text = Some v ->
  -128 <= v <= 255 ->
  total_sum_label (snd (on_decimal_changed text st))
  = (if v =? 0 then NoActiveBits
     else ActiveBits
            (sum_terms (bit_boxes (snd (on_decimal_changed text st)))) v)
  /\ terms_total (sum_terms (bit_boxes (snd (on_decimal_changed text st))))
     = (if v <=? 127 then v else v - 256).
Proof.
  intros Hp Hb Hint Hv.
  destruct (convert_to_base_round_trip (Z.land v 255)
              (base_selector (cards st))
              ltac:(pose proof (land_255_range v); lia) Hb) as (s & Hc & _).
  rewrite (on_decimal_changed_accepts_full text v st s Hint Hv Hp Hc).
  cbn [snd total_sum_label bit_boxes set_invert_button set_total_sum_label
       set_explanation_text on_cards set_cards set_bit_boxes].
  assert (Hview : view (write_bits (binary_str v) (bit_boxes st))
                  = combine powers_7_0 (bits_of (binary_str v))).
  { rewrite view_write_bits, Hp; [reflexivity|].
    destruct (binary_str_shape v) as [_ ->].
    now rewrite (well_formed_length st Hp). }
  destruct (sum_terms_pattern v Hv) as [Htotal Hempty].
  rewrite <- Hview, <- sum_terms_view in Htotal, Hempty.
  split; [|exact Htotal].
  unfold label_of.
  destruct (sum_terms (write_bits (binary_str v) (bit_boxes st))) as [|t ts].
  - rewrite (proj1 Hempty eq_refl). reflexivity.
  - destruct (Z.eqb_spec v 0) as [H0|_]; [|reflexivity].
    apply Hempty in H0. discriminate.
Qed.

Lemma accepted_input_sum_label_witness :
  total_sum_label (snd (on_decimal_changed "200" initial))
  = ActiveBits [MinusTwoToSeven; TwoTo 6; TwoTo 3] 200
  /\ terms_total (sum_terms (bit_boxes (snd (on_decimal_changed "200" initial))))
     = -56.
Proof.
  apply (accepted_input_sum_label initial "200" 200).
  - reflexivity.
  - vm_compute. split; discriminate.
  - reflexivity.
  - lia.
Defined.

(** X4: after an accepted input v, held by the decimal input when the slot
    runs, the explanation pane holds the division table of v when the
    division method is selected and the powers-of-two explanation of v
    otherwise (base of the Base-N card at most 16). *)
Theorem accepted_input_explanation (st : Tab) (text : string) (v : Z) :
  map BitBox.power (bit_boxes st) = powers_7_0 ->
  2 <= base_selector (cards st) <= 16 ->
  decimal_input st = text ->
  int text = Some v ->
  -128 <= v <= 255 ->
  explanation_text (snd (on_decimal_changed text st))
  = (if division_radio st then show_division_method v
     else show_powers_method v).
Proof.
  intros Hp Hb Htext Hint Hv.
  destruct (convert_to_base_round_trip (Z.land v 255)
              (base_selector (cards st))
              ltac:(pose proof (land_255_range v); lia) Hb) as (s & Hc & _).
  rewrite (on_decimal_changed_accepts_full text v st s Hint Hv Hp Hc).
  cbn [snd explanation_text set_invert_button set_total_sum_label
       set_explanation_text].
  unfold explanation_of. rewrite Htext.
  replace (text =? "")%string with false.
  - rewrite Hint. reflexivity.
  - symmetry. apply String.eqb_neq. intros ->.
    rewrite int_empty_text in Hint. discriminate.
Qed.

Lemma accepted_input_explanation_witness :
  explanation_text
    (snd (on_decimal_changed "6"
            (snd (run [mode_group_buttonClicked true;
                       modify (set_decimal_input "6")] initial))))
  = DivisionTable 6 [(6, 3, 0); (3, 1, 1); (1, 0, 1)] "110".
Proof.
  apply (accepted_input_explanation
           (snd (run [mode_group_buttonClicked true;
                      modify (set_decimal_input "6")] initial)) "6" 6).
  - reflexivity.
  - vm_compute. split; discriminate.
  - reflexivity.
  - reflexivity.
  - lia.
Defined.

(** ** One click on a box *)






(** ** Inverting the sign of a value in range *)

Lemma invert_step (st : Tab) (v : Z) :
  well_formed st ->
  base_selector (cards st) <= 16 ->
  int (decimal_input st) = Some v ->
  shows st v ->
  invert_button st = true ->
  -127 <= v <= 127 ->
  exists st',
    invert_button_click st = (Ret tt, st')
    /\ well_formed st'
    /\ base_selector (cards st') <= 16
    /\ int (decimal_input st') = Some (- v)
    /\ shows st' (- v)
    /\ invert_button st' = true.
Proof.
  intros Hwf Hb16 Hint Hs Hen Hv.
  assert (Hback : int (str (- v)) = Some (- v)) by (apply int_str; lia).
  unfold invert_button_click, bind at 1, gets at 1. rewrite Hen.
  unfold invert_sign, try_except, bind at 1, gets at 1.
  unfold bind at 1. rewrite Hint. cbn [or_raise ret].
  unfold decimal_input_setText, bind at 1, gets at 1.
  destruct (String.eqb_spec (decimal_input st) (str (- v))) as [Heq|Hneq].
  - assert (v = 0).
    { rewrite Heq, Hback in Hint. injection Hint. lia. }
    subst v. exists st. cbn [ret Z.opp]. repeat split; try assumption.
    + apply Hwf.
    + apply Hwf.
    + apply Hwf.
  - unfold textChanged, bind at 1, modify at 1.
    destruct Hwf as [Hp Hb].
    destruct (convert_to_base_round_trip (Z.land (- v) 255)
                (base_selector (cards st))
                ltac:(pose proof (land_255_range (- v)); lia)
                ltac:(lia)) as (s & Hc & _).
    destruct (on_decimal_changed_accepts (str (- v)) (- v)
                (set_decimal_input (str (- v)) st) s Hback ltac:(lia) Hp Hc)
      as (boxes & E & L & Hp' & Hview & ->).
    eexists. split; [reflexivity|]. cbn.
    repeat split; try assumption; try apply Hb.
    replace (- v =? -128) with false by (symmetry; apply Z.eqb_neq; lia).
    reflexivity.
Qed.

(** X6: for a value v of [-127, 127] that the input holds and the boxes
    show, with the invert button enabled and a base of at most 16 in the
    Base-N card, a click on the invert button makes the input hold -v and
    the boxes show the pattern of -v, and a second click brings back v and
    its pattern. *)
Theorem invert_twice_restores (st : Tab) (v : Z) :
  well_formed st ->
  base_selector (cards st) <= 16 ->
  int (decimal_input st) = Some v ->
  shows st v ->
  invert_button st = true ->
  -127 <= v <= 127 ->
  exists st1 st2,
    invert_button_click st = (Ret tt, st1)
    /\ int (decimal_input st1) = Some (- v)
    /\ shows st1 (- v)
    /\ invert_button_click st1 = (Ret tt, st2)
    /\ int (decimal_input st2) = Some v
    /\ shows st2 v.
Proof.
  intros Hwf Hb16 Hint Hs Hen Hv.
  destruct (invert_step st v Hwf Hb16 Hint Hs Hen Hv)
    as (st1 & H1 & Hwf1 & Hb1 & Hint1 & Hs1 & Hen1).
  destruct (invert_step st1 (- v) Hwf1 Hb1 Hint1 Hs1 Hen1 ltac:(lia))
    as (st2 & H2 & _ & _ & Hint2 & Hs2 & _).
  rewrite Z.opp_involutive in Hint2, Hs2.
  exists st1, st2. repeat split; assumption.
Qed.

Lemma invert_twice_restores_witness :
  exists st1 st2,
    invert_button_click (after [DecimalEdited "5"]) = (Ret tt, st1)
    /\ int (decimal_input st1) = Some (-5)
    /\ shows st1 (-5)
    /\ invert_button_click st1 = (Ret tt, st2)
    /\ int (decimal_input st2) = Some 5
    /\ shows st2 5.
Proof.
  apply (invert_twice_restores (after [DecimalEdited "5"]) 5).
  - apply well_formedb_ok. vm_compute. reflexivity.
  - vm_compute. discriminate.
  - vm_compute. reflexivity.
  - vm_compute. reflexivity.
  - vm_compute. reflexivity.
  - lia.
Defined.

(** ** The spin box of the Base-N card *)

Lemma convert_base_in_itself (base : Z) :
  2 <= base <= 36 -> convert_to_base (Z.land base 255) base = Ret "10".
Proof.
  intros Hb.
  pose proof (between_all
    (fun base => match convert_to_base (Z.land base 255) base with
                 | Ret s => String.eqb s "10"
                 | _ => false
                 end) 2 36 ltac:(vm_compute; reflexivity) base Hb) as H.
  cbv beta in H.
  destruct (convert_to_base (Z.land base 255) base) as [s| |];
    try discriminate.
  apply String.eqb_eq in H. now subst.
Qed.

(** X7: selecting another base (2..36) in the Base-N card runs
    [update_all_outputs] with the base as its value: the handler returns
    normally, the binary, octal and hex cards then show the base itself, the
    Base-N card shows 10, and the sum label shows the base after its equals
    sign, while the boxes and the decimal input keep the value they had. *)
Theorem base_change_shows_base (st : Tab) (base : Z) :
  bit_boxes st <> [] ->
  2 <= base <= 36 ->
  base <> base_selector (cards st) ->
  fst (base_selector_setValue base st) = Ret tt
  /\ cards (snd (base_selector_setValue base st))
     = {| binary_card := format_b 8 (Z.land base 255);
          octal_card := format_o (Z.land base 255);
          hex_card := format_x (Z.land base 255);
          custom_base_card := "10";
          base_selector := base |}
  /\ total_sum_label (snd (base_selector_setValue base st))
     = label_of (bit_boxes st) base
  /\ bit_boxes (snd (base_selector_setValue base st)) = bit_boxes st
  /\ decimal_input (snd (base_selector_setValue base st)) = decimal_input st.
Proof.
  intros Hne Hb Hold.
  assert (Hrun : base_selector_setValue base st
                 = update_all_outputs base
                     (on_cards (set_base_selector base) st)).
  { unfold base_selector_setValue.
    replace (Z.max 2 (Z.min 36 base)) with base by lia.
    unfold bind at 1, gets at 1. unfold bind at 1, modify at 1.
    replace (base_selector (cards st) =? base) with false
      by (symmetry; apply Z.eqb_neq; congruence).
    reflexivity. }
  rewrite Hrun.
  rewrite (update_all_outputs_full base
             (on_cards (set_base_selector base) st) "10"
             (convert_base_in_itself base Hb) Hne).
  cbn. repeat split.
Qed.

Lemma base_change_shows_base_witness :
  fst (base_selector_setValue 16 (after [DecimalEdited "200"])) = Ret tt
  /\ cards (snd (base_selector_setValue 16 (after [DecimalEdited "200"])))
     = {| binary_card := "00010000"; octal_card := "20"; hex_card := "10";
          custom_base_card := "10"; base_selector := 16 |}
  /\ total_sum_label
       (snd (base_selector_setValue 16 (after [DecimalEdited "200"])))
     = ActiveBits [MinusTwoToSeven; TwoTo 6; TwoTo 3] 16
  /\ bit_boxes (snd (base_selector_setValue 16 (after [DecimalEdited "200"])))
     = bit_boxes (after [DecimalEdited "200"])
  /\ decimal_input
       (snd (base_selector_setValue 16 (after [DecimalEdited "200"])))
     = "200".
Proof.
  apply (base_change_shows_base (after [DecimalEdited "200"]) 16).
  - vm_compute. discriminate.
  - lia.
  - vm_compute. discriminate.
Defined.

(** ** Which texts are accepted *)

Lemma on_decimal_changed_empty (st : Tab) :
  map BitBox.power (bit_boxes st) = powers_7_0 ->
  on_decimal_changed "" st
  = (Ret tt,
     set_total_sum_label NoActiveBits
       (set_explanation_text
          (explanation_of (decimal_input st) (division_radio st))
          (on_cards (shown 0 "0")
             (set_bit_boxes (write_bits (binary_str 0) (bit_boxes st))
                (set_invert_button true
                   (set_decimal_input_style GreenBorder st)))))).
Proof.
  intros Hp. pose proof (well_formed_length st Hp) as Hlen.
  pose (st1 := set_invert_button true (set_decimal_input_style GreenBorder st)).
  pose (st2 := set_bit_boxes (write_bits (binary_str 0) (bit_boxes st)) st1).
  assert (Hne2 : bit_boxes st2 <> []).
  { intros H0. apply (f_equal (map BitBox.power)) in H0.
    cbn in H0. rewrite powers_write_bits, Hp in H0. discriminate. }
  assert (Hbits : update_bits_from_decimal 0 st1 = (Ret tt, st2))
    by exact (update_bits_from_decimal_writes st1 0 Hlen).
  assert (Hlabel : label_of (bit_boxes st2) 0 = NoActiveBits).
  { unfold label_of. rewrite sum_terms_view.
    cbn [bit_boxes st2 set_bit_boxes].
    rewrite view_write_bits, Hp; [reflexivity|].
    destruct (binary_str_shape 0) as [_ ->]. now rewrite Hlen. }
  unfold on_decimal_changed. cbn [String.eqb].
  unfold bind at 1, modify at 1. unfold bind at 1, modify at 1. fold st1.
  unfold bind at 1. rewrite Hbits.
  rewrite (update_all_outputs_full 0 st2 "0" eq_refl Hne2), Hlabel.
  reflexivity.
Qed.

(** X8: the empty text is processed as the value 0: the handler returns
    normally, every box is cleared, the cards show 00000000, 0, 0 and 0, the
    sum label shows no active bits, the border is green and the invert
    button is enabled, whatever base is selected. *)
Theorem empty_text_resets_to_zero (st : Tab) :
  map BitBox.power (bit_boxes st) = powers_7_0 ->
  fst (on_decimal_changed "" st) = Ret tt
  /\ map BitBox.value (bit_boxes (snd (on_decimal_changed "" st)))
     = [0; 0; 0; 0; 0; 0; 0; 0]
  /\ cards (snd (on_decimal_changed "" st))
     = {| binary_card := "00000000"; octal_card := "0"; hex_card := "0";
          custom_base_card := "0";
          base_selector := base_selector (cards st) |}
  /\ total_sum_label (snd (on_decimal_changed "" st)) = NoActiveBits
  /\ decimal_input_style (snd (on_decimal_changed "" st)) = GreenBorder
  /\ invert_button (snd (on_decimal_changed "" st)) = true.
Proof.
  intros Hp. rewrite (on_decimal_changed_empty st Hp). cbn.
  repeat split.
  apply values_of_view with (powers := powers_7_0); [|reflexivity].
  rewrite view_write_bits, Hp; [reflexivity|].
  rewrite (well_formed_length st Hp). reflexivity.
Qed.

Lemma empty_text_resets_to_zero_witness :
  fst (on_decimal_changed "" (after [DecimalEdited "-128"])) = Ret tt
  /\ map BitBox.value
       (bit_boxes (snd (on_decimal_changed "" (after [DecimalEdited "-128"]))))
     = [0; 0; 0; 0; 0; 0; 0; 0]
  /\ cards (snd (on_decimal_changed "" (after [DecimalEdited "-128"])))
     = {| binary_card := "00000000"; octal_card := "0"; hex_card := "0";
          custom_base_card := "0"; base_selector := 10 |}
  /\ total_sum_label (snd (on_decimal_changed "" (after [DecimalEdited "-128"])))
     = NoActiveBits
  /\ decimal_input_style
       (snd (on_decimal_changed "" (after [DecimalEdited "-128"])))
     = GreenBorder
  /\ invert_button (snd (on_decimal_changed "" (after [DecimalEdited "-128"])))
     = true.
Proof.
  apply (empty_text_resets_to_zero (after [DecimalEdited "-128"])).
  reflexivity.
Defined.

(** X9: with a base of at most 16 in the Base-N card, [on_decimal_changed]
    returns normally on every text; the border ends green exactly when the
    text is empty or an integer of [-128, 255], and the invert button ends
    enabled exactly when the text is empty or an integer of [-127, 255]. *)
Theorem border_and_invert_follow_text (st : Tab) (text : string) :
  well_formed st ->
  base_selector (cards st) <= 16 ->
  fst (on_decimal_changed text st) = Ret tt
  /\ (decimal_input_style (snd (on_decimal_changed text st)) = GreenBorder
      <-> text = "" \/ exists v, int text = Some v /\ -128 <= v <= 255)
  /\ (invert_button (snd (on_decimal_changed text st)) = true
      <-> text = "" \/ exists v, int text = Some v /\ -127 <= v <= 255).
Proof.
  intros [Hp Hb] Hb16.
  destruct (String.eqb_spec text "") as [->|Hne].
  - rewrite (on_decimal_changed_empty st Hp). cbn.
    repeat split; auto.
  - destruct (int text) as [v|] eqn:Hint.
    + destruct (Z_le_dec (-128) v) as [Hlo|Hlo];
        [destruct (Z_le_dec v 255) as [Hhi|Hhi]|].
      * destruct (convert_to_base_round_trip (Z.land v 255)
                    (base_selector (cards st))
                    ltac:(pose proof (land_255_range v); lia)
                    ltac:(lia)) as (s & Hc & _).
        rewrite (on_decimal_changed_accepts_full text v st s Hint
                   (conj Hlo Hhi) Hp Hc).
        cbn. split; [reflexivity|]. split.
        -- split; [intros _; right; exists v; auto | reflexivity].
        -- destruct (Z.eqb_spec v (-128)) as [->|Hn]; cbn; split.
           ++ discriminate.
           ++ intros [H0|(w & Hw & Hr)]; [contradiction|].
              injection Hw as <-. lia.
           ++ intros _. right. exists v. split; [reflexivity | lia].
           ++ reflexivity.
      * rewrite (on_decimal_changed_rejected text st).
        -- cbn. split; [reflexivity|].
           split; split; try discriminate;
             intros [H0|(w & Hw & Hr)]; try contradiction;
             injection Hw as <-; lia.
        -- split; [exact Hne|]. right. exists v. split; [exact Hint | lia].
      * rewrite (on_decimal_changed_rejected text st).
        -- cbn. split; [reflexivity|].
           split; split; try discriminate;
             intros [H0|(w & Hw & Hr)]; try contradiction;
             injection Hw as <-; lia.
        -- split; [exact Hne|]. right. exists v. split; [exact Hint | lia].
    + rewrite (on_decimal_changed_rejected text st).
      * cbn. split; [reflexivity|].
        split; split; try discriminate;
          intros [H0|(w & Hw & Hr)]; try contradiction; discriminate.
      * split; [exact Hne|]. left. exact Hint.
Qed.

Lemma border_and_invert_follow_text_witness :
  fst (on_decimal_changed "12a" initial) = Ret tt
  /\ (decimal_input_style (snd (on_decimal_changed "12a" initial))
      = GreenBorder
      <-> "12a" = "" \/ exists v, int "12a" = Some v /\ -128 <= v <= 255)
  /\ (invert_button (snd (on_decimal_changed "12a" initial)) = true
      <-> "12a" = "" \/ exists v, int "12a" = Some v /\ -127 <= v <= 255).
Proof.
  apply (border_and_invert_follow_text initial "12a").
  - apply well_formedb_ok. vm_compute. reflexivity.
  - vm_compute. discriminate.
Defined.

(** ** A quiz question from start to submission *)

Lemma quiz_binary_shape (drawn : Z) :
  0 <= drawn <= 255 ->
  String.length (zfill 8 (slice_from 2 (bin drawn))) = 8%nat
  /\ numeral 2 (zfill 8 (slice_from 2 (bin drawn))) = Some drawn.
Proof.
  intros Hd.
  pose proof (between_all
    (fun d =>
       (String.length (zfill 8 (slice_from 2 (bin d))) =? 8)%nat
       && match numeral 2 (zfill 8 (slice_from 2 (bin d))) with
          | Some n => n =? d
          | None => false
          end) 0 255 ltac:(vm_compute; reflexivity) drawn Hd) as H.
  cbv beta in H. apply andb_true_iff in H. destruct H as [Hl Hn].
  apply Nat.eqb_eq in Hl. split; [exact Hl|].
  destruct (numeral 2 _) as [n|]; [|discriminate].
  apply Z.eqb_eq in Hn. now subst.
Qed.

(** X10: for a drawn number of [0, 255], [start_quiz] stores it as the
    answer, shows it in the question as eight binary digits that read back
    to it, clears the quiz input and enables the submit button; typing the
    decimal form of the number and submitting is then scored as correct:
    score and total both grow by one. *)
Theorem quiz_question_round_trip (st : Tab) (drawn : Z) :
  0 <= drawn <= 255 ->
  quiz_answer (quiz (snd (start_quiz drawn st))) = drawn
  /\ quiz_question (quiz (snd (start_quiz drawn st)))
     = "What is " ++ zfill 8 (slice_from 2 (bin drawn)) ++ " in decimal?"
  /\ String.length (zfill 8 (slice_from 2 (bin drawn))) = 8%nat
  /\ numeral 2 (zfill 8 (slice_from 2 (bin drawn))) = Some drawn
  /\ quiz_input (quiz (snd (start_quiz drawn st))) = ""
  /\ quiz_submit (quiz (snd (start_quiz drawn st))) = true
  /\ fst (run [start_quiz drawn; quiz_input_edit (str drawn);
               quiz_submit_click] st) = Ret tt
  /\ quiz_score (quiz (snd (run [start_quiz drawn; quiz_input_edit (str drawn);
                                 quiz_submit_click] st)))
     = quiz_score (quiz st) + 1
  /\ quiz_total (quiz (snd (run [start_quiz drawn; quiz_input_edit (str drawn);
                                 quiz_submit_click] st)))
     = quiz_total (quiz st) + 1
  /\ message_box (quiz (snd (run [start_quiz drawn;
                                  quiz_input_edit (str drawn);
                                  quiz_submit_click] st)))
     = Some (Correct (zfill 8 (slice_from 2 (bin drawn))) drawn).
Proof.
  intros Hd. destruct (quiz_binary_shape drawn Hd) as [Hl Hn].
  assert (Hint : int (str drawn) = Some drawn) by (apply int_str; lia).
  unfold run, start_quiz, quiz_input_edit, quiz_submit_click,
    check_quiz_answer, try_except, bind, gets, modify, ret.
  cbn -[zfill bin slice_from numeral str int append Z.add].
  rewrite Hint.
  cbn -[zfill bin slice_from numeral str int append Z.add].
  rewrite Z.eqb_refl.
  cbn -[zfill bin slice_from numeral str int append Z.add].
  repeat split; assumption.
Qed.

Lemma quiz_question_round_trip_witness :
  quiz_answer (quiz (snd (start_quiz 77 initial))) = 77
  /\ quiz_question (quiz (snd (start_quiz 77 initial)))
     = "What is " ++ zfill 8 (slice_from 2 (bin 77)) ++ " in decimal?"
  /\ String.length (zfill 8 (slice_from 2 (bin 77))) = 8%nat
  /\ numeral 2 (zfill 8 (slice_from 2 (bin 77))) = Some 77
  /\ quiz_input (quiz (snd (start_quiz 77 initial))) = ""
  /\ quiz_submit (quiz (snd (start_quiz 77 initial))) = true
  /\ fst (run [start_quiz 77; quiz_input_edit (str 77);
               quiz_submit_click] initial) = Ret tt
  /\ quiz_score (quiz (snd (run [start_quiz 77; quiz_input_edit (str 77);
                                 quiz_submit_click] initial)))
     = quiz_score (quiz initial) + 1
  /\ quiz_total (quiz (snd (run [start_quiz 77; quiz_input_edit (str 77);
                                 quiz_submit_click] initial)))
     = quiz_total (quiz initial) + 1
  /\ message_box (quiz (snd (run [start_quiz 77; quiz_input_edit (str 77);
                                  quiz_submit_click] initial)))
     = Some (Correct (zfill 8 (slice_from 2 (bin 77))) 77).
Proof.
  apply (quiz_question_round_trip initial 77). lia.
Defined.

(** X11: once a submission has parsed as an integer, right or wrong, the
    submit button is disabled and the quiz input cleared, so typing and
    clicking submit again changes neither counter; a submission that is no
    integer leaves the button enabled and the typed text in place. *)
Theorem one_attempt_per_question (st : Tab) (text again : string) :
  quiz_submit (quiz st) = true ->
  match int text with
  | Some _ =>
      quiz_submit (quiz (snd (run [quiz_input_edit text; quiz_submit_click]
                                st))) = false
      /\ quiz_input (quiz (snd (run [quiz_input_edit text; quiz_submit_click]
                                  st))) = ""
      /\ quiz_total (quiz (snd (run [quiz_input_edit text; quiz_submit_click;
                                     quiz_input_edit again; quiz_submit_click]
                                  st)))
         = quiz_total (quiz st) + 1
      /\ quiz_score (quiz (snd (run [quiz_input_edit text; quiz_submit_click;
                                     quiz_input_edit again; quiz_submit_click]
                                  st)))
         = quiz_score (quiz (snd (run [quiz_input_edit text; quiz_submit_click]
                                    st)))
  | None =>
      quiz_submit (quiz (snd (run [quiz_input_edit text; quiz_submit_click]
                                st))) = true
      /\ quiz_input (quiz (snd (run [quiz_input_edit text; quiz_submit_click]
                                  st))) = text
      /\ message_box (quiz (snd (run [quiz_input_edit text; quiz_submit_click]
                                   st))) = Some InvalidInput
  end.
Proof.
  intros Hen.
  destruct (int text) as [u|] eqn:Hint;
    unfold run, quiz_input_edit, quiz_submit_click, check_quiz_answer,
      try_except, bind, gets, modify, ret;
    cbn -[int Z.add zfill bin slice_from]; rewrite Hen;
    cbn -[int Z.add zfill bin slice_from]; rewrite Hint;
    cbn -[int Z.add zfill bin slice_from].
  - destruct (u =? quiz_answer (quiz st));
      cbn -[int Z.add zfill bin slice_from]; repeat split.
  - rewrite ?Hen. repeat split.
Qed.

Lemma one_attempt_per_question_witness :
  quiz_submit (quiz (snd (run [quiz_input_edit "76"; quiz_submit_click]
                            (snd (start_quiz 77 initial))))) = false
  /\ quiz_input (quiz (snd (run [quiz_input_edit "76"; quiz_submit_click]
                              (snd (start_quiz 77 initial))))) = ""
  /\ quiz_total (quiz (snd (run [quiz_input_edit "76"; quiz_submit_click;
                                 quiz_input_edit "77"; quiz_submit_click]
                              (snd (start_quiz 77 initial)))))
     = quiz_total (quiz (snd (start_quiz 77 initial))) + 1
  /\ quiz_score (quiz (snd (run [quiz_input_edit "76"; quiz_submit_click;
                                 quiz_input_edit "77"; quiz_submit_click]
                              (snd (start_quiz 77 initial)))))
     = quiz_score (quiz (snd (run [quiz_input_edit "76"; quiz_submit_click]
                                (snd (start_quiz 77 initial))))).
Proof.
  apply (one_attempt_per_question (snd (start_quiz 77 initial)) "76" "77").
  reflexivity.
Defined.

(** ** The explanations beyond the accepted range *)

Lemma greedy_all_powers (v : Z) : 255 <= v -> greedy powers_7_0 v = powers_7_0.
Proof.
  intros Hv. unfold powers_7_0. cbn [greedy].
  change (2 ^ 7) with 128. change (2 ^ 6) with 64. change (2 ^ 5) with 32.
  change (2 ^ 4) with 16. change (2 ^ 3) with 8. change (2 ^ 2) with 4.
  change (2 ^ 1) with 2. change (2 ^ 0) with 1.
  repeat match goal with
         | |- context [?a <=? ?b] =>
             replace (a <=? b) with true by (symmetry; apply Z.leb_le; lia)
         end.
  reflexivity.
Qed.

(** X12: the explanation follows the text of the decimal input even when
    that text was rejected as out of range.  With a text that parses to
    v >= 256, a click on the powers-of-two radio button puts in the pane a
    sum that lists all eight powers 7..0, which add up to 255 and not to v,
    beside the full binary string of v. *)
Theorem powers_method_above_255 (st : Tab) (text : string) (v : Z) :
  decimal_input st = text ->
  int text = Some v ->
  256 <= v ->
  fst (mode_group_buttonClicked false st) = Ret tt
  /\ explanation_text (snd (mode_group_buttonClicked false st))
     = PowersSum v [7; 6; 5; 4; 3; 2; 1; 0] (slice_from 2 (bin v))
  /\ sum_of_powers [7; 6; 5; 4; 3; 2; 1; 0] = 255
  /\ sum_of_powers [7; 6; 5; 4; 3; 2; 1; 0] < v.
Proof.
  intros Htext Hint Hv.
  assert (Hrun : mode_group_buttonClicked false st
                 = update_explanation 0 (set_division_radio false st))
    by reflexivity.
  rewrite Hrun, update_explanation_full. cbn [fst snd explanation_text
    set_explanation_text decimal_input division_radio set_division_radio].
  split; [reflexivity|]. split; [|split; [reflexivity | cbn; lia]].
  unfold explanation_of. rewrite Htext.
  replace (text =? "")%string with false.
  - rewrite Hint. unfold show_powers_method.
    replace (v <? 0) with false by (symmetry; apply Z.ltb_ge; lia).
    replace (v =? 0) with false by (symmetry; apply Z.eqb_neq; lia).
    change (range_down (num_bits - 1) (-1)) with powers_7_0.
    pose proof (powers_loop_greedy powers_7_0 v []) as Hg.
    rewrite greedy_all_powers in Hg by lia.
    destruct (powers_loop powers_7_0 v []) as [parts left_over].
    simpl in Hg. subst parts. reflexivity.
  - symmetry. apply String.eqb_neq. intros ->.
    rewrite int_empty_text in Hint. discriminate.
Qed.

Lemma powers_method_above_255_witness :
  fst (mode_group_buttonClicked false (after [DecimalEdited "300"])) = Ret tt
  /\ explanation_text
       (snd (mode_group_buttonClicked false (after [DecimalEdited "300"])))
     = PowersSum 300 [7; 6; 5; 4; 3; 2; 1; 0] "100101100"
  /\ sum_of_powers [7; 6; 5; 4; 3; 2; 1; 0] = 255
  /\ sum_of_powers [7; 6; 5; 4; 3; 2; 1; 0] < 300.
Proof.
  apply (powers_method_above_255 (after [DecimalEdited "300"]) "300" 300).
  - reflexivity.
  - reflexivity.
  - lia.
Defined.

Lemma length_append (a b : string) :
  String.length (a ++ b) = (String.length a + String.length b)%nat.
Proof.
  induction a as [|c a IH]; simpl; [reflexivity|]. now rewrite IH.
Qed.

Lemma division_rows_count (p : positive) :
  Z.of_nat (List.length (division_rows (Z.pos p))) = Z.log2 (Z.pos p) + 1
  /\ List.length (division_rows (Z.pos p)) = String.length (pos_bits p).
Proof.
  induction p as [p [IH1 IH2]|p [IH1 IH2]|].
  - rewrite division_rows_odd. cbn [List.length pos_bits].
    rewrite length_append, <- IH2. split; [|simpl; lia].
    rewrite Pos2Z.inj_xI, Z.log2_succ_double by lia. lia.
  - rewrite division_rows_even. cbn [List.length pos_bits].
    rewrite length_append, <- IH2. split; [|simpl; lia].
    rewrite Pos2Z.inj_xO, Z.log2_double by lia. lia.
  - split; reflexivity.
Qed.

(** X13: the division method is right for every positive v, not only up to
    255: the table is a halving trace from v down to quotient 0, it has as
    many rows as v has binary digits (log2 v + 1), and its remainders read
    from the last row up are the binary numeral of v shown under the table,
    without leading zero. *)
Theorem division_method_any_positive (v : Z) :
  0 < v ->
  exists rows,
    show_division_method v = DivisionTable v rows (remainders_bottom_up rows)
    /\ is_trace v rows
    /\ Z.of_nat (List.length rows) = Z.log2 v + 1
    /\ List.length rows = String.length (remainders_bottom_up rows)
    /\ numeral 2 (remainders_bottom_up rows) = Some v
    /\ leading_zero (remainders_bottom_up rows) = false.
Proof.
  intros Hv. destruct v as [|p|p]; try lia.
  destruct (bin_digits_minimal (Z.pos p) ltac:(lia)) as [Hnum Hlead].
  destruct (division_rows_count p) as [Hlog Hlen].
  exists (division_rows (Z.pos p)).
  rewrite division_rows_remainders.
  repeat split; try assumption. apply division_rows_trace.
Qed.

Lemma division_method_any_positive_witness :
  exists rows,
    show_division_method 1000
    = DivisionTable 1000 rows (remainders_bottom_up rows)
    /\ is_trace 1000 rows
    /\ Z.of_nat (List.length rows) = Z.log2 1000 + 1
    /\ List.length rows = String.length (remainders_bottom_up rows)
    /\ numeral 2 (remainders_bottom_up rows) = Some 1000
    /\ leading_zero (remainders_bottom_up rows) = false.
Proof.
  apply (division_method_any_positive 1000). lia.
Defined.

(** ** [convert_to_base] on every input *)

Lemma digit_zero_code (c : ascii) :
  code c = 48 -> digit_value c = Some 0.
Proof.
  intros H. unfold digit_value. rewrite H. reflexivity.
Qed.

Lemma convert_to_base_loop_leading (steps : nat) :
  forall (num base : Z) (result : string),
    2 <= base <= 16 -> 0 < num -> (Z.to_nat num <= steps)%nat ->
    exists c rest,
      convert_to_base_loop steps num base result = Ret (String c rest)
      /\ digit_value c <> Some 0.
Proof.
  induction steps as [|steps IH]; intros num base result Hb Hn Hs; [lia|].
  cbn [convert_to_base_loop].
  replace (num >? 0) with true by (symmetry; apply Z.gtb_lt; lia).
  unfold mod_, floordiv.
  replace (base =? 0) with false by (symmetry; apply Z.eqb_neq; lia).
  pose proof (Z.mod_pos_bound num base ltac:(lia)) as Hm.
  destruct (digits_value (num mod base) ltac:(lia)) as (c & -> & Hc).
  assert (Hq : 0 <= num / base) by (apply Z.div_pos; lia).
  assert (Hlt : num / base < num) by (apply Z.div_lt; lia).
  destruct (Z.eq_dec (num / base) 0) as [Hz|Hnz].
  - rewrite Hz. exists c, result. split.
    + destruct steps; reflexivity.
    + rewrite Hc. intros H0. injection H0 as H0.
      pose proof (Z.div_mod num base ltac:(lia)). lia.
  - apply IH; [exact Hb | lia | lia].
Qed.

(** X14: for every num >= 0 and every base of 2..16, [convert_to_base]
    returns a numeral over 0-9A-F that reads back to num in that base and
    has no leading zero; it is the single digit 0 exactly for num = 0. *)
Theorem convert_to_base_any_number (num base : Z) :
  0 <= num ->
  2 <= base <= 16 ->
  exists s,
    convert_to_base num base = Ret s
    /\ numeral base s = Some num
    /\ leading_zero s = false
    /\ (s = "0" <-> num = 0).
Proof.
  intros Hn Hb.
  destruct (convert_to_base_round_trip num base Hn Hb) as (s & Hc & Hs).
  exists s. split; [exact Hc|]. split; [exact Hs|].
  destruct (Z.eq_dec num 0) as [->|Hne].
  - unfold convert_to_base, convert_to_base_in in Hc. cbn in Hc.
    injection Hc as <-. split; [reflexivity|]. split; reflexivity.
  - unfold convert_to_base, convert_to_base_in in Hc.
    replace (num =? 0) with false in Hc by (symmetry; apply Z.eqb_neq; lia).
    destruct (convert_to_base_loop_leading (Z.to_nat num) num base ""
                Hb ltac:(lia) (Nat.le_refl _)) as (c & rest & Hl & Hd).
    rewrite Hl in Hc. injection Hc as <-.
    assert (Hc48 : (code c =? 48) = false).
    { apply Z.eqb_neq. intros H48. apply Hd, digit_zero_code, H48. }
    split.
    + destruct rest; [reflexivity|]. simpl. exact Hc48.
    + split; [|contradiction]. intros H0. injection H0 as -> ->.
      discriminate.
Qed.

Lemma convert_to_base_any_number_witness :
  exists s,
    convert_to_base 65535 16 = Ret s
    /\ numeral 16 s = Some 65535
    /\ leading_zero s = false
    /\ (s = "0" <-> 65535 = 0).
Proof.
  apply (convert_to_base_any_number 65535 16); lia.
Defined.

Lemma convert_to_base_loop_base_1 (steps : nat) :
  forall (num : Z) (result : string),
    0 < num -> convert_to_base_loop steps num 1 result = Unfinished.
Proof.
  induction steps as [|steps IH]; intros num result Hn;
    cbn [convert_to_base_loop];
    replace (num >? 0) with true by (symmetry; apply Z.gtb_lt; lia);
    [reflexivity|].
  unfold mod_, floordiv. cbn [Z.eqb].
  rewrite Z.mod_1_r, Z.div_1_r. cbn [index digits].
  change (index "0123456789ABCDEF" 0) with (Some "0"%char).
  apply IH, Hn.
Qed.

(** X15: outside the bases the spin box offers, [convert_to_base] on a
    positive num raises [ZeroDivisionError] for base 0 and never finishes
    for base 1, whatever bound is put on the iterations of its loop; on a
    negative number it returns the empty string for every base. *)
Theorem convert_to_base_edges (num base : Z) :
  0 < num ->
  convert_to_base num 0 = Raise ZeroDivisionError
  /\ (forall steps, convert_to_base_in steps num 1 = Unfinished)
  /\ convert_to_base (- num) base = Ret "".
Proof.
  intros Hn. split; [|split].
  - unfold convert_to_base, convert_to_base_in.
    replace (num =? 0) with false by (symmetry; apply Z.eqb_neq; lia).
    destruct (Z.to_nat num) as [|steps] eqn:Hs; [lia|].
    cbn [convert_to_base_loop].
    replace (num >? 0) with true by (symmetry; apply Z.gtb_lt; lia).
    reflexivity.
  - intros steps. unfold convert_to_base_in.
    replace (num =? 0) with false by (symmetry; apply Z.eqb_neq; lia).
    apply convert_to_base_loop_base_1, Hn.
  - unfold convert_to_base, convert_to_base_in.
    replace (- num =? 0) with false by (symmetry; apply Z.eqb_neq; lia).
    replace (Z.to_nat (- num)) with O by lia.
    cbn [convert_to_base_loop].
    replace (- num >? 0) with false; [reflexivity|].
    symmetry. rewrite Z.gtb_ltb. apply Z.ltb_ge. lia.
Qed.

Lemma convert_to_base_edges_witness :
  convert_to_base 5 0 = Raise ZeroDivisionError
  /\ (forall steps, convert_to_base_in steps 5 1 = Unfinished)
  /\ convert_to_base (- 5) 10 = Ret "".
Proof.
  apply (convert_to_base_edges 5 10). lia.
Defined.

Lemma index_digits (d : Z) :
  0 <= d ->
  (d < 16 -> exists c, index digits d = Some c)
  /\ (16 <= d -> index digits d = None).
Proof.
  intros Hd. split.
  - intros Hlt. destruct (digits_value d ltac:(lia)) as (c & Hc & _).
    now exists c.
  - intros Hge. unfold index. change (Z.of_nat (String.length digits)) with 16.
    replace (d <? 16) with false by (symmetry; apply Z.ltb_ge; lia).
    replace (d <? 0) with false by (symmetry; apply Z.ltb_ge; lia).
    rewrite !andb_false_r. reflexivity.
Qed.

Lemma digit_at_zero (num base : Z) : digit_at num base 0 = num mod base.
Proof.
  unfold digit_at. cbn [Z.of_nat]. rewrite Z.pow_0_r, Z.div_1_r. reflexivity.
Qed.

Lemma digit_at_succ (num base : Z) (k : nat) :
  0 < base -> digit_at num base (S k) = digit_at (num / base) base k.
Proof.
  intros Hb. unfold digit_at.
  rewrite Nat2Z.inj_succ, Z.pow_succ_r by lia.
  rewrite Z.div_div; [reflexivity | lia | apply Z.pow_pos_nonneg; lia].
Qed.

Lemma digit_at_0_l (base : Z) (k : nat) : digit_at 0 base k = 0.
Proof.
  unfold digit_at. rewrite Zdiv_0_l, Zmod_0_l. reflexivity.
Qed.

Lemma convert_to_base_loop_raises (steps : nat) :
  forall (num base : Z) (result : string),
    2 <= base -> 0 <= num -> (Z.to_nat num <= steps)%nat ->
    ((exists s, convert_to_base_loop steps num base result = Ret s)
     /\ forall k, digit_at num base k < 16)
    \/ (convert_to_base_loop steps num base result = Raise IndexError
        /\ exists k, 16 <= digit_at num base k).
Proof.
  induction steps as [|steps IH]; intros num base result Hb Hn Hs.
  - assert (num = 0) by lia. subst num. left. split; [now exists result|].
    intros k. rewrite digit_at_0_l. lia.
  - cbn [convert_to_base_loop]. destruct (num >? 0) eqn:Hpos.
    + apply Z.gtb_lt in Hpos. unfold mod_, floordiv.
      replace (base =? 0) with false by (symmetry; apply Z.eqb_neq; lia).
      pose proof (Z.mod_pos_bound num base ltac:(lia)) as Hm.
      destruct (index_digits (num mod base) ltac:(lia)) as [Hsome Hnone].
      destruct (Z_lt_dec (num mod base) 16) as [Hlt|Hge].
      * destruct (Hsome Hlt) as [c ->].
        assert (Hq : 0 <= num / base) by (apply Z.div_pos; lia).
        assert (Hdec : num / base < num) by (apply Z.div_lt; lia).
        destruct (IH (num / base) base (String c result) Hb Hq ltac:(lia))
          as [[Hret Hall]|[Hraise [k Hk]]].
        -- left. split; [exact Hret|]. intros [|k].
           ++ rewrite digit_at_zero. exact Hlt.
           ++ rewrite digit_at_succ by lia. apply Hall.
        -- right. split; [exact Hraise|]. exists (S k).
           rewrite digit_at_succ by lia. exact Hk.
      * rewrite (Hnone ltac:(lia)). right. split; [reflexivity|].
        exists O. rewrite digit_at_zero. lia.
    + assert (num = 0)
        by (rewrite Z.gtb_ltb in Hpos; apply Z.ltb_ge in Hpos; lia).
      subst num. left. split; [now exists result|].
      intros k. rewrite digit_at_0_l. lia.
Qed.

(** X16: for every num >= 0 and every base >= 2, [convert_to_base] either
    returns a string or raises [IndexError], and it raises exactly when
    some digit of num in that base is 16 or more, the digit table having
    sixteen characters. *)
Theorem convert_to_base_raises_iff (num base : Z) :
  0 <= num ->
  2 <= base ->
  ((exists s, convert_to_base num base = Ret s)
   \/ convert_to_base num base = Raise IndexError)
  /\ (convert_to_base num base = Raise IndexError
      <-> exists k, 16 <= digit_at num base k).
Proof.
  intros Hn Hb. unfold convert_to_base, convert_to_base_in.
  destruct (Z.eqb_spec num 0) as [->|Hne].
  - split; [left; now exists "0"|]. split; [discriminate|].
    intros [k Hk]. rewrite digit_at_0_l in Hk. lia.
  - destruct (convert_to_base_loop_raises (Z.to_nat num) num base ""
                Hb Hn (Nat.le_refl _)) as [[[s Hret] Hall]|[Hraise Hex]].
    + split; [left; now exists s|]. rewrite Hret. split; [discriminate|].
      intros [k Hk]. specialize (Hall k). lia.
    + split; [right; exact Hraise|]. split; [intros _; exact Hex|].
      intros _. exact Hraise.
Qed.

Lemma convert_to_base_raises_iff_witness :
  ((exists s, convert_to_base 560 36 = Ret s)
   \/ convert_to_base 560 36 = Raise IndexError)
  /\ (convert_to_base 560 36 = Raise IndexError
      <-> exists k, 16 <= digit_at 560 36 k).
Proof.
  apply (convert_to_base_raises_iff 560 36); lia.
Defined.

(** ** Edits and clicks exclude each other *)



(** ** The tab after a click in manual mode, in full *)




(** ** The invert button without manual edits *)

Lemma on_decimal_changed_tracks (text : string) (st st' : Tab) :
  well_formed st ->
  decimal_input st = text ->
  on_decimal_changed text st = (Ret tt, st') ->
  invert_tracks_text st'.
Proof.
  intros [Hp Hb] Htext Hrun. unfold invert_tracks_text.
  assert (Hkept : decimal_input st' = text).
  { pose proof (on_decimal_changed_keeps text st (well_formed_length st Hp))
      as [Hk _].
    rewrite Hrun in Hk. cbn [snd] in Hk. unfold kept in Hk.
    injection Hk as Hd _ _ _ _ _. congruence. }
  rewrite Hkept.
  destruct (String.eqb_spec text "") as [->|Hne].
  - rewrite (on_decimal_changed_empty st Hp) in Hrun.
    injection Hrun as <-. cbn. split; auto.
  - destruct (int text) as [v|] eqn:Hint.
    + destruct (Z_le_dec (-128) v) as [Hlo|Hlo];
        [destruct (Z_le_dec v 255) as [Hhi|Hhi]|].
      * destruct (convert_to_base_outcome (Z.land v 255)
                    (base_selector (cards st)) (land_255_range v) Hb)
          as [[s Hc]|[Hc _]].
        -- rewrite (on_decimal_changed_accepts_full text v st s Hint
                      (conj Hlo Hhi) Hp Hc) in Hrun.
           injection Hrun as <-. cbn.
           destruct (Z.eqb_spec v (-128)) as [->|Hn]; cbn; split.
           ++ discriminate.
           ++ intros [H0|(w & Hw & Hr)]; [contradiction|].
              injection Hw as <-. lia.
           ++ intros _. right. exists v. split; [reflexivity | lia].
           ++ reflexivity.
        -- pose proof (on_decimal_changed_raises text v st Hint
                         (conj Hlo Hhi) Hp Hc) as Hr.
           rewrite Hrun in Hr. discriminate.
      * rewrite (on_decimal_changed_rejected text st) in Hrun.
        -- injection Hrun as <-. cbn.
           split; [discriminate|].
           intros [H0|(w & Hw & Hr)]; [contradiction|].
           injection Hw as <-. lia.
        -- split; [exact Hne|]. right. exists v. split; [exact Hint | lia].
      * rewrite (on_decimal_changed_rejected text st) in Hrun.
        -- injection Hrun as <-. cbn.
           split; [discriminate|].
           intros [H0|(w & Hw & Hr)]; [contradiction|].
           injection Hw as <-. lia.
        -- split; [exact Hne|]. right. exists v. split; [exact Hint | lia].
    + rewrite (on_decimal_changed_rejected text st) in Hrun.
      * injection Hrun as <-. cbn.
        split; [discriminate|].
        intros [H0|(w & Hw & Hr)]; [contradiction | discriminate].
      * split; [exact Hne|]. left. exact Hint.
Qed.

Lemma decimal_input_setText_tracks (text : string) (st st' : Tab) :
  well_formed st ->
  invert_tracks_text st ->
  decimal_input_setText text st = (Ret tt, st') ->
  invert_tracks_text st'.
Proof.
  intros Hwf Ht Hrun.
  unfold decimal_input_setText, bind, gets in Hrun.
  destruct (decimal_input st =? text)%string.
  - injection Hrun as <-. exact Ht.
  - unfold textChanged, bind, modify in Hrun.
    apply (on_decimal_changed_tracks text (set_decimal_input text st) st');
      [exact Hwf | reflexivity | exact Hrun].
Qed.

Lemma tracks_fields (st st' : Tab) :
  decimal_input st' = decimal_input st ->
  invert_button st' = invert_button st ->
  invert_tracks_text st -> invert_tracks_text st'.
Proof.
  intros H1 H4. unfold invert_tracks_text. rewrite H1, H4. auto.
Qed.

Lemma on_decimal_changed_no_ValueError (text : string) (st : Tab) :
  map BitBox.power (bit_boxes st) = powers_7_0 ->
  fst (on_decimal_changed text st) <> Raise ValueError.
Proof.
  intros Hp. destruct (String.eqb_spec text "") as [->|Hne].
  - rewrite (on_decimal_changed_empty st Hp). discriminate.
  - unfold on_decimal_changed.
    replace (text =? "")%string with false
      by (symmetry; apply String.eqb_neq; exact Hne).
    unfold try_except.
    match goal with |- context [match ?c st with _ => _ end] =>
      destruct (c st) as [[u|e|] st1] end; cbn [fst]; try discriminate.
    destruct e; cbn; discriminate.
Qed.

Lemma invert_sign_tracks (st st' : Tab) :
  well_formed st ->
  invert_tracks_text st ->
  invert_sign st = (Ret tt, st') ->
  invert_tracks_text st'.
Proof.
  intros Hwf Ht Hrun.
  unfold invert_sign, try_except, bind at 1, gets at 1 in Hrun.
  unfold bind at 1 in Hrun.
  destruct (int (decimal_input st)) as [v|].
  - cbn [or_raise ret] in Hrun.
    destruct (decimal_input_setText (str (- v)) st) as [[[]|e|] st1] eqn:Hs.
    + injection Hrun as <-.
      apply (decimal_input_setText_tracks _ st st1 Hwf Ht Hs).
    + assert (Hno : e <> ValueError).
      { intros ->. unfold decimal_input_setText, bind, gets in Hs.
        destruct (decimal_input st =? str (- v))%string; [discriminate|].
        unfold textChanged, bind, modify in Hs.
        apply (on_decimal_changed_no_ValueError (str (- v))
                 (set_decimal_input (str (- v)) st)); [apply Hwf|].
        rewrite Hs. reflexivity. }
      destruct e; cbn in Hrun; try discriminate. contradiction.
    + discriminate.
  - cbn in Hrun. injection Hrun as <-. exact Ht.
Qed.

Lemma slot_tracks (e : Event) (st st' : Tab) :
  no_bit_event e = true ->
  invariant st ->
  invert_tracks_text st ->
  slot e st = (Ret tt, st') ->
  invert_tracks_text st'.
Proof.
  intros He (Hwf & _) Ht Hrun. destruct e; try discriminate He;
    cbn [slot] in Hrun.
  - unfold decimal_input_edit, bind, gets in Hrun.
    destruct (decimal_input_read_only st).
    + injection Hrun as <-. exact Ht.
    + apply (decimal_input_setText_tracks text st st' Hwf Ht Hrun).
  - unfold toggle_manual_mode, bind, modify in Hrun.
    injection Hrun as <-. exact Ht.
  - unfold invert_button_click, bind, gets in Hrun.
    destruct (invert_button st) eqn:Hen.
    + apply (invert_sign_tracks st st' Hwf Ht Hrun).
    + injection Hrun as <-. exact Ht.
  - unfold base_selector_setValue, bind, gets, modify in Hrun.
    destruct (base_selector (cards st) =? Z.max 2 (Z.min 36 base)).
    + injection Hrun as <-. exact Ht.
    + pose proof (core_fields _ _
                    (update_all_outputs_core (Z.max 2 (Z.min 36 base))
                       (on_cards
                          (set_base_selector (Z.max 2 (Z.min 36 base))) st)))
        as (H1 & _ & _ & H4 & _).
      rewrite Hrun in H1, H4. cbn [snd] in H1, H4.
      exact (tracks_fields _ _ H1 H4 Ht).
  - unfold mode_group_buttonClicked, bind, modify in Hrun.
    rewrite update_explanation_full in Hrun. injection Hrun as <-. exact Ht.
  - unfold start_quiz, bind, modify in Hrun. injection Hrun as <-. exact Ht.
  - unfold quiz_input_edit, modify in Hrun. injection Hrun as <-. exact Ht.
  - unfold quiz_submit_click, bind, gets in Hrun.
    destruct (quiz_submit (quiz st)); [|injection Hrun as <-; exact Ht].
    unfold check_quiz_answer, try_except, bind, gets, modify in Hrun.
    destruct (int (quiz_input (quiz st))) as [u|]; cbn in Hrun.
    + destruct (u =? quiz_answer (quiz st)); cbn in Hrun;
        injection Hrun as <-; exact Ht.
    + injection Hrun as <-. exact Ht.
Qed.

Lemma run_tracks (events : list Event) : forall st st',
  forallb no_bit_event events = true ->
  invariant st ->
  invert_tracks_text st ->
  run (map slot events) st = (Ret tt, st') ->
  invert_tracks_text st'.
Proof.
  induction events as [|e rest IH]; intros st st' Hev Hinv Ht Hrun.
  - cbn in Hrun. injection Hrun as <-. exact Ht.
  - cbn [forallb] in Hev. apply andb_true_iff in Hev.
    destruct Hev as [He Hrest].
    cbn [map run] in Hrun. unfold bind in Hrun.
    pose proof (preserves_slot e st Hinv) as Hinv1.
    destruct (slot e st) as [[[]|x|] st1] eqn:Hs; try discriminate.
    cbn [snd] in Hinv1.
    apply (IH st1 st' Hrest Hinv1 (slot_tracks e st st1 He Hinv Ht Hs) Hrun).
Qed.

(** X19: as long as no box is clicked, the invert button follows the text of
    the decimal input: after any sequence of edits, invert clicks, mode and
    base selections and quiz actions that ran without an exception, the
    button is enabled exactly when the text is empty or an integer of
    [-127, 255]; in particular it is disabled whenever the text reads
    -128. *)
Theorem invert_button_tracks_text (events : list Event) :
  forallb no_bit_event events = true ->
  fst (run (map slot events) initial) = Ret tt ->
  (invert_button (after events) = true
   <-> (decimal_input (after events) = ""
        \/ exists v, int (decimal_input (after events)) = Some v
                     /\ -127 <= v <= 255))
  /\ (int (decimal_input (after events)) = Some (-128) ->
      invert_button (after events) = false).
Proof.
  intros Hev Hret.
  assert (Ht : invert_tracks_text (after events)).
  { unfold after. destruct (run (map slot events) initial) as [r st'] eqn:Hrun.
    cbn [fst] in Hret. subst r.
    apply (run_tracks events initial st' Hev initial_invariant); [|exact Hrun].
    unfold invert_tracks_text. change (invert_button initial) with true.
    change (decimal_input initial) with "0". split; [|reflexivity].
    intros _. right. exists 0. split; [reflexivity | lia]. }
  split; [exact Ht|].
  intros H128. destruct (invert_button (after events)) eqn:Hen; [|reflexivity].
  apply Ht in Hen. destruct Hen as [H0|(v & Hv & Hr)].
  - rewrite H0 in H128. discriminate.
  - rewrite Hv in H128. injection H128 as ->. lia.
Qed.

Lemma invert_button_tracks_text_witness :
  (invert_button (after [DecimalEdited "-128"; ManualModeToggled true;
                         InvertClicked]) = true
   <-> (decimal_input (after [DecimalEdited "-128"; ManualModeToggled true;
                              InvertClicked]) = ""
        \/ exists v,
             int (decimal_input (after [DecimalEdited "-128";
                                        ManualModeToggled true;
                                        InvertClicked])) = Some v
             /\ -127 <= v <= 255))
  /\ (int (decimal_input (after [DecimalEdited "-128"; ManualModeToggled true;
                                 InvertClicked])) = Some (-128) ->
      invert_button (after [DecimalEdited "-128"; ManualModeToggled true;
                            InvertClicked]) = false).
Proof.
  apply (invert_button_tracks_text
           [DecimalEdited "-128"; ManualModeToggled true; InvertClicked]).
  - reflexivity.
  - vm_compute. reflexivity.
Defined.
